(** * ApiClient (NodeJsClient.js): token-authenticated HTTP client

    A shallow embedding of the [ApiClient] class of [src/NodeJsClient.js]
    and the properties of its token cache, its authentication and its
    request/retry logic.

    The class is stateful and effectful: it mutates its own fields, reads
    and writes [localStorage], reads the clock and calls [fetch].  The
    embedding threads an explicit [World] through a small state-and-
    exception monad; an exception keeps the state reached when it was
    thrown, as in JavaScript.

    Besides the client proper (constructor, token cache, [authenticate],
    [ensureAuthenticated], [request] and the three endpoint methods) the
    embedding covers [_generateFilename] and [debugRecordStructure].

    What the model leaves out: [console.log] and [console.error], which
    only print; the helpers that write files ([saveToJson],
    [fetchAndSaveRecord], [processRecord]); a [localStorage] that refuses
    a write; and two calls of one client running interleaved.  Time is in
    whole milliseconds, as the time value of a [Date] is, and passes only
    while a [fetch] is awaited.

    Numbers are integers, and the text of a number is its decimal numeral:
    that is what JavaScript writes for a safe integer (at most 2^53 - 1 in
    absolute value).  The conversion of an object to text is the inherited
    [Object.prototype.toString]; an object with an own [toString] property,
    on which JavaScript throws a TypeError instead, is told apart by
    [stringifiable].  Text is a string of bytes holding UTF-8.  Statements
    that depend on the text of a value say on which values they hold
    ([plain], [safe_numbers]). *)

From Stdlib Require Import ZArith List String Ascii Bool Lia Permutation.
From stdpp Require Import base option gmap strings pretty.
Import ListNotations.

Set Warnings "-register-all".

Local Open Scope Z_scope.
Local Open Scope string_scope.

(** ** JavaScript values *)

Module JS.

(** The values the client handles: what [JSON.parse] produces, plus
    [undefined].  A number is an integer here (page numbers, HTTP statuses,
    epoch milliseconds); fractional numbers and NaN do not occur in what
    the client itself computes and are left out of the model. *)
Inductive value : Type :=
| VUndefined
| VNull
| VBool (b : bool)
| VNum (n : Z)
| VStr (s : string)
| VArr (elems : list value)
| VObj (props : list (string * value)).

(** An object with string keys: its properties in creation order. *)
Definition object : Type := list (string * value).

(** ToBoolean: the test of [if (x)], [!x], [x && y]. *)
Definition ToBoolean (v : value) : bool :=
  match v with
  | VUndefined | VNull => false
  | VBool b => b
  | VNum n => negb (n =? 0)%Z
  | VStr s => negb (String.eqb s "")
  | VArr _ | VObj _ => true
  end.

Fixpoint join (sep : string) (parts : list string) : string :=
  match parts with
  | [] => ""
  | [p] => p
  | p :: rest => p +:+ sep +:+ join sep rest
  end.

(** ToString, as applied by template literals, [URLSearchParams.append]
    and [Storage.setItem]: the text JavaScript gives for a value that is
    [plain] (below).  A safe integer is written as its decimal numeral; an
    object gives the text of the inherited [Object.prototype.toString]. *)
Fixpoint ToString (v : value) : string :=
  match v with
  | VUndefined => "undefined"
  | VNull => "null"
  | VBool true => "true"
  | VBool false => "false"
  | VNum n => pretty n
  | VStr s => s
  | VArr elems =>
      join "," (map (fun e => match e with
                              | VUndefined | VNull => ""
                              | _ => ToString e
                              end) elems)
  | VObj _ => "[object Object]"
  end.

(** [o[k]] on an object's own properties. *)
Fixpoint obj_get (o : object) (k : string) : option value :=
  match o with
  | [] => None
  | (k', v) :: rest => if String.eqb k' k then Some v else obj_get rest k
  end.

(** Whether the conversion of a value to a primitive succeeds.  An object
    read from JSON that has an own [toString] property hides the inherited
    method behind a value that cannot be called, and the inherited
    [valueOf] returns the object itself: the conversion throws a TypeError.
    An array is joined from the text of its elements, so it converts where
    they do. *)
Fixpoint stringifiable (v : value) : bool :=
  match v with
  | VArr elems => forallb stringifiable elems
  | VObj props =>
      match obj_get props "toString" with
      | Some _ => false
      | None => true
      end
  | _ => true
  end.

(** A safe integer: JavaScript holds it exactly and writes it as its
    decimal numeral. *)
Definition safe_integer (n : Z) : bool := (Z.abs n <=? 2 ^ 53 - 1)%Z.

(** Every number inside a value is a safe integer. *)
Fixpoint safe_numbers (v : value) : bool :=
  match v with
  | VNum n => safe_integer n
  | VArr elems => forallb safe_numbers elems
  | VObj props => forallb (fun '(_, x) => safe_numbers x) props
  | _ => true
  end.

(** The values on which [ToString] is the text JavaScript gives. *)
Definition plain (v : value) : bool := stringifiable v && safe_numbers v.

(** [o[k] = v]: an existing property keeps its place, a new one is created
    last. *)
Fixpoint obj_set (o : object) (k : string) (v : value) : object :=
  match o with
  | [] => [(k, v)]
  | (k', v') :: rest =>
      if String.eqb k' k then (k', v) :: rest else (k', v') :: obj_set rest k v
  end.

(** Property keys that are array indices (canonical decimal numerals below
    2^32 - 1) are enumerated first, in ascending order; the other keys
    follow in creation order. *)
Definition digit_of (c : ascii) : option N :=
  let n := N_of_ascii c in
  if ((48 <=? n) && (n <=? 57))%N then Some (n - 48)%N else None.

Fixpoint digits_value (s : string) (acc : N) : option N :=
  match s with
  | EmptyString => Some acc
  | String c rest =>
      match digit_of c with
      | Some d => digits_value rest (10 * acc + d)%N
      | None => None
      end
  end.

Definition array_index (k : string) : option N :=
  match k with
  | EmptyString => None
  | _ =>
      match digits_value k 0%N with
      | Some n =>
          if String.eqb (pretty n) k && (n <? 2 ^ 32 - 1)%N then Some n else None
      | None => None
      end
  end.

Fixpoint insert_by_index (i : N) (p : string * value)
    (sorted : list (N * (string * value))) : list (N * (string * value)) :=
  match sorted with
  | [] => [(i, p)]
  | (j, q) :: rest =>
      if (i <? j)%N then (i, p) :: sorted else (j, q) :: insert_by_index i p rest
  end.

Fixpoint index_props (o : object) : list (N * (string * value)) :=
  match o with
  | [] => []
  | (k, v) :: rest =>
      match array_index k with
      | Some i => insert_by_index i (k, v) (index_props rest)
      | None => index_props rest
      end
  end.

Definition named_props (o : object) : object :=
  List.filter (fun p => match array_index (fst p) with
                        | Some _ => false
                        | None => true
                        end) o.

(** [Object.entries(o)]. *)
Definition entries (o : object) : list (string * value) :=
  map snd (index_props o) ++ named_props o.

(** [{ ...base, ...src }]: every own property of [src] is set on [base],
    in enumeration order. *)
Definition spread (base src : object) : object :=
  fold_left (fun acc p => obj_set acc (fst p) (snd p)) (entries src) base.

(** [data.k] for the keys the client reads ([token], [expires_at]), which
    no prototype defines: a TypeError on [undefined] and [null] (here
    [None]), the own property of an object, [undefined] otherwise. *)
Definition get_prop (data : value) (k : string) : option value :=
  match data with
  | VUndefined | VNull => None
  | VObj props =>
      match obj_get props k with
      | Some v => Some v
      | None => Some VUndefined
      end
  | _ => Some VUndefined
  end.

(** *** String methods used by the client *)

(** [s.startsWith('/') ? s.substring(1) : s] *)
Definition strip_leading_slash (s : string) : string :=
  match s with
  | String "/" rest => rest
  | _ => s
  end.

Fixpoint endsWith_slash (s : string) : bool :=
  match s with
  | EmptyString => false
  | String c EmptyString => Ascii.eqb c "/"
  | String _ rest => endsWith_slash rest
  end.

(** [s.slice(0, -1)] *)
Fixpoint slice_0_m1 (s : string) : string :=
  match s with
  | EmptyString => EmptyString
  | String _ EmptyString => EmptyString
  | String c rest => String c (slice_0_m1 rest)
  end.

(** *** URLSearchParams *)

Definition hex_digit (n : N) : ascii :=
  ascii_of_N (if (n <? 10)%N then 48 + n else 55 + n)%N.

(** The application/x-www-form-urlencoded byte serializer: a space becomes
    [+]; letters, digits and [* - . _] stay; any other byte is written as
    [%XX]. *)
Definition urlencode_byte (c : ascii) : string :=
  let n := N_of_ascii c in
  if (n =? 32)%N then "+"
  else if ((n =? 42) || (n =? 45) || (n =? 46) || (n =? 95)
           || ((48 <=? n) && (n <=? 57))
           || ((65 <=? n) && (n <=? 90))
           || ((97 <=? n) && (n <=? 122)))%N
       then String c EmptyString
       else String "%" (String (hex_digit (n / 16)) (String (hex_digit (n mod 16)) EmptyString)).

Fixpoint urlencode (s : string) : string :=
  match s with
  | EmptyString => EmptyString
  | String c rest => urlencode_byte c +:+ urlencode rest
  end.

(** [new URLSearchParams()], [append(key, value)] for each entry, then
    [toString()]. *)
Definition URLSearchParams_toString (pairs : list (string * value)) : string :=
  join "&" (map (fun p => urlencode (fst p) +:+ "=" +:+ urlencode (ToString (snd p))) pairs).

(** *** Dates *)

(** A [Date] object: its time value is NaN ([InvalidDate]) or a number of
    milliseconds since the epoch. *)
Inductive Date : Type :=
| InvalidDate
| DateAt (t : Z).

(** TimeClip *)
Definition TimeClip (t : Z) : Date :=
  if (Z.abs t <=? 8640000000000000)%Z then DateAt t else InvalidDate.

End JS.

Import JS.

(** ** The world the client runs in *)

(** An HTTP response as the client reads it: [response.status],
    [response.text()] and [response.json()] ([None] when the body is not
    JSON and [json()] rejects). *)
Record Response : Type := {
  status : Z;
  text : string;
  json : option value
}.

(** [response.ok] *)
Definition ok (r : Response) : bool :=
  ((200 <=? status r) && (status r <=? 299))%Z.

(** What a [fetch] meets: a rejection (no response at all) or a response. *)
Inductive Outcome : Type :=
| NetworkError
| Replied (r : Response).

(** The [options] argument of [fetch]; [body] holds the value whose
    [JSON.stringify] text is sent. *)
Record Options : Type := {
  method : string;
  headers : list (string * string);
  body : option value
}.

Record Exchange : Type := {
  ex_url : string;
  ex_options : Options;
  ex_outcome : Outcome
}.

(** The fields of an [ApiClient] instance.  [tokenExpiry] is [null] or a
    [Date] object. *)
Record ApiClient : Type := {
  baseUrl : string;
  username : value;
  password : value;
  token : value;
  tokenExpiry : option Date
}.

(** The client object together with everything outside it that the
    methods touch:
    - [localStorage]: [None] where [typeof localStorage] is ['undefined'];
    - [clock]: what [new Date()] reads, in milliseconds;
    - [network]: what the coming calls of [fetch] will meet, each with the
      time it takes;
    - [exchanges]: the calls of [fetch] made so far, oldest first. *)
Record World : Type := {
  this : ApiClient;
  localStorage : option (gmap string string);
  clock : Z;
  network : list (Z * Outcome);
  exchanges : list Exchange
}.

(** Exceptions: the client's own [new Error(message)] and the ones the host
    raises. *)
Inductive exn : Type :=
| Error (message : string)
| TypeError (message : string)
| SyntaxError
| RangeError
| ReferenceError.

Inductive Completion (A : Type) : Type :=
| Normal (a : A)
| Throw (e : exn).
Arguments Normal {A} a.
Arguments Throw {A} e.

(** A computation runs in a world and completes normally or abruptly; the
    world it leaves is kept in both cases. *)
Definition M (A : Type) : Type := World -> Completion A * World.

Definition ret {A} (a : A) : M A := fun w => (Normal a, w).

Definition bind {A B} (m : M A) (k : A -> M B) : M B := fun w =>
  match m w with
  | (Normal a, w') => k a w'
  | (Throw e, w') => (Throw e, w')
  end.

Definition throw {A} (e : exn) : M A := fun w => (Throw e, w).

(** [try { m } catch (e) { handler e }] *)
Definition try_catch {A} (m : M A) (handler : exn -> M A) : M A := fun w =>
  match m w with
  | (Normal a, w') => (Normal a, w')
  | (Throw e, w') => handler e w'
  end.

Declare Scope js_scope.
Delimit Scope js_scope with js.
Notation "x <- m ;; k" := (bind m (fun x => k))
  (at level 100, m at next level, right associativity) : js_scope.
Notation "m ;; k" := (bind m (fun _ => k))
  (at level 100, right associativity) : js_scope.
Local Open Scope js_scope.

(** *** Field access and assignment on [this] *)

Definition get_this : M ApiClient := fun w => (Normal (this w), w).

Definition set_this (c : ApiClient) : M unit := fun w =>
  (Normal tt,
   {| this := c; localStorage := localStorage w; clock := clock w;
      network := network w; exchanges := exchanges w |}).

Definition set_username (v : value) : M unit :=
  c <- get_this ;;
  set_this {| baseUrl := baseUrl c; username := v; password := password c;
              token := token c; tokenExpiry := tokenExpiry c |}.

Definition set_password (v : value) : M unit :=
  c <- get_this ;;
  set_this {| baseUrl := baseUrl c; username := username c; password := v;
              token := token c; tokenExpiry := tokenExpiry c |}.

Definition set_token (v : value) : M unit :=
  c <- get_this ;;
  set_this {| baseUrl := baseUrl c; username := username c; password := password c;
              token := v; tokenExpiry := tokenExpiry c |}.

Definition set_tokenExpiry (d : option Date) : M unit :=
  c <- get_this ;;
  set_this {| baseUrl := baseUrl c; username := username c; password := password c;
              token := token c; tokenExpiry := d |}.

(** *** localStorage *)

(** [typeof localStorage !== 'undefined'] *)
Definition localStorage_defined : M bool := fun w =>
  (Normal (match localStorage w with Some _ => true | None => false end), w).

Definition set_localStorage (s : gmap string string) : M unit := fun w =>
  (Normal tt,
   {| this := this w; localStorage := Some s; clock := clock w;
      network := network w; exchanges := exchanges w |}).

(** [localStorage.getItem(k)]: the stored string, or [null]. *)
Definition localStorage_getItem (k : string) : M value := fun w =>
  match localStorage w with
  | None => (Throw ReferenceError, w)
  | Some s => (Normal (match s !! k with Some v => VStr v | None => VNull end), w)
  end.

Definition localStorage_setItem (k v : string) : M unit := fun w =>
  match localStorage w with
  | None => (Throw ReferenceError, w)
  | Some s => set_localStorage (<[k := v]> s) w
  end.

Definition localStorage_removeItem (k : string) : M unit := fun w =>
  match localStorage w with
  | None => (Throw ReferenceError, w)
  | Some s => set_localStorage (delete k s) w
  end.

(** *** Dates *)

(** What the host's date functions do with text is left to the host:
    [Date.parse] (an Invalid Date on text it does not recognise) and
    [toISOString] on a valid time value. *)
Class Host : Type := {
  Date_parse : string -> Date;
  Date_toISOString : Z -> string
}.

(** [new Date()] *)
Definition new_Date_now : M Date := fun w => (Normal (DateAt (clock w)), w).

(** The time value of [new Date(v)] for one argument: text is parsed,
    anything else is converted to a number ([undefined] giving NaN) and
    clipped; an array or an object is first converted to a primitive, which
    is its text.  Where that conversion fails there is no date. *)
Definition Date_of_value `{Host} (v : value) : Date :=
  match v with
  | VUndefined => InvalidDate
  | VNull => TimeClip 0
  | VBool b => TimeClip (if b then 1 else 0)
  | VNum n => TimeClip n
  | VStr s => Date_parse s
  | VArr _ | VObj _ =>
      if stringifiable v then Date_parse (ToString v) else InvalidDate
  end.

(** [new Date(v)]: a TypeError where [v] has no primitive value; on every
    other value a date, valid or not. *)
Definition new_Date `{Host} (v : value) : M Date :=
  if stringifiable v then ret (Date_of_value v)
  else throw (TypeError "Cannot convert object to primitive value").

(** A JavaScript number that is an integer or NaN ([None]). *)
Definition number : Type := option Z.

(** ToNumber of a field that holds [null] or a [Date]: [null] is 0, a date
    is its time value. *)
Definition ToNumber_date (d : option Date) : number :=
  match d with
  | None => Some 0%Z
  | Some InvalidDate => None
  | Some (DateAt t) => Some t
  end.

(** [d.getTime()] *)
Definition getTime (d : Date) : number :=
  match d with
  | InvalidDate => None
  | DateAt t => Some t
  end.

(** [new Date(n)] for a number [n] *)
Definition Date_of_number (n : number) : Date :=
  match n with
  | Some t => TimeClip t
  | None => InvalidDate
  end.

Definition new_Date_number (n : number) : M Date :=
  ret (Date_of_number n).

(** [a + b], [a - b] and [a > b] on numbers; NaN propagates and compares
    false. *)
Definition number_add (a : number) (b : Z) : number :=
  match a with
  | Some x => Some (x + b)%Z
  | None => None
  end.

Definition number_sub (a b : number) : number :=
  match a, b with
  | Some x, Some y => Some (x - y)%Z
  | _, _ => None
  end.

Definition number_gt (a : number) (b : Z) : bool :=
  match a with
  | Some x => (b <? x)%Z
  | None => false
  end.

(** ToBoolean of a field that holds [null] or a [Date]: an object is true,
    also an Invalid Date. *)
Definition ToBoolean_date (d : option Date) : bool :=
  match d with
  | Some _ => true
  | None => false
  end.

(** [d.toISOString()]: a RangeError on an Invalid Date (and a TypeError on
    [null]). *)
Definition toISOString `{Host} (d : option Date) : M string :=
  match d with
  | None => throw (TypeError "Cannot read properties of null")
  | Some InvalidDate => throw RangeError
  | Some (DateAt t) => ret (Date_toISOString t)
  end.

(** *** fetch *)

Definition record_exchange (x : Exchange) (dt : Z) (rest : list (Z * Outcome))
    (w : World) : World :=
  {| this := this w; localStorage := localStorage w; clock := (clock w + dt)%Z;
     network := rest; exchanges := exchanges w ++ [x] |}.

(** [await fetch(url, options)]: the call is logged, the time it takes
    passes, and it yields the response or rejects with a TypeError.  A
    network with nothing left to say is unreachable. *)
Definition fetch (url : string) (options : Options) : M Response := fun w =>
  match network w with
  | [] =>
      (Throw (TypeError "fetch failed"),
       record_exchange {| ex_url := url; ex_options := options;
                          ex_outcome := NetworkError |} 0 [] w)
  | (dt, out) :: rest =>
      let w' := record_exchange {| ex_url := url; ex_options := options;
                                   ex_outcome := out |} dt rest w in
      match out with
      | NetworkError => (Throw (TypeError "fetch failed"), w')
      | Replied r => (Normal r, w')
      end
  end.

(** [await response.json()] *)
Definition response_json (r : Response) : M value :=
  match json r with
  | Some v => ret v
  | None => throw SyntaxError
  end.

(** [await response.text()] *)
Definition response_text (r : Response) : M string := ret (text r).

(** [data.k] *)
Definition prop (data : value) (k : string) : M value :=
  match get_prop data k with
  | Some v => ret v
  | None => throw (TypeError ("Cannot read properties of " +:+ ToString data))
  end.

(** ** The class ApiClient *)

Section Client.
Context `{Host}.

(** [_clearStoredToken()] *)
Definition _clearStoredToken : M unit :=
  defined <- localStorage_defined ;;
  (if defined then
     localStorage_removeItem "api_token" ;;
     localStorage_removeItem "api_token_expiry"
   else ret tt) ;;
  set_token VNull ;;
  set_tokenExpiry None.

(** [isTokenValid()] *)
Definition isTokenValid : M bool :=
  c <- get_this ;;
  if negb (ToBoolean (token c)) || negb (ToBoolean_date (tokenExpiry c)) then
    ret false
  else
    now <- new_Date_now ;;
    let bufferTime := (5 * 60 * 1000)%Z in
    ret (number_gt (number_sub (ToNumber_date (tokenExpiry c)) (ToNumber_date (Some now)))
                   bufferTime).

(** [_loadStoredToken()] *)
Definition _loadStoredToken : M unit :=
  defined <- localStorage_defined ;;
  if defined then
    storedToken <- localStorage_getItem "api_token" ;;
    storedExpiry <- localStorage_getItem "api_token_expiry" ;;
    if ToBoolean storedToken && ToBoolean storedExpiry then
      set_token storedToken ;;
      expiry <- new_Date storedExpiry ;;
      set_tokenExpiry (Some expiry) ;;
      valid <- isTokenValid ;;
      if negb valid then _clearStoredToken else ret tt
    else ret tt
  else ret tt.

(** A parameter with a default value: the default replaces [undefined]. *)
Definition default_to (d v : value) : value :=
  match v with
  | VUndefined => d
  | _ => v
  end.

(** [new ApiClient(baseUrl, username = null, password = null)] *)
Definition constructor (baseUrl' : string) (username' password' : value) : M unit :=
  set_this {| baseUrl := if endsWith_slash baseUrl' then slice_0_m1 baseUrl' else baseUrl';
              username := default_to VNull username';
              password := default_to VNull password';
              token := VNull;
              tokenExpiry := None |} ;;
  _loadStoredToken.

(** [_saveToken()] *)
Definition _saveToken : M unit :=
  defined <- localStorage_defined ;;
  c <- get_this ;;
  if defined && ToBoolean (token c) && ToBoolean_date (tokenExpiry c) then
    localStorage_setItem "api_token" (ToString (token c)) ;;
    iso <- toISOString (tokenExpiry c) ;;
    localStorage_setItem "api_token_expiry" iso
  else ret tt.

(** [authenticate(username = null, password = null)] *)
Definition authenticate (username' password' : value) : M bool :=
  (if ToBoolean username' then set_username username' else ret tt) ;;
  (if ToBoolean password' then set_password password' else ret tt) ;;
  c <- get_this ;;
  if negb (ToBoolean (username c)) || negb (ToBoolean (password c)) then
    throw (Error "No credentials provided for authentication")
  else
    let url := baseUrl c +:+ "/api-token-auth/" in
    let data := VObj [("username", username c); ("password", password c)] in
    try_catch
      (response <- fetch url {| method := "POST";
                                headers := [("Content-Type", "application/json")];
                                body := Some data |} ;;
       if ok response then
         data <- response_json response ;;
         data_token <- prop data "token" ;;
         set_token data_token ;;
         try_catch
           (expires_at <- prop data "expires_at" ;;
            expiry <- new_Date expires_at ;;
            set_tokenExpiry (Some expiry))
           (fun e =>
              now <- new_Date_now ;;
              expiry <- new_Date_number (number_add (getTime now) (24 * 60 * 60 * 1000)) ;;
              set_tokenExpiry (Some expiry)) ;;
         _saveToken ;;
         ret true
       else
         errorText <- response_text response ;;
         throw (Error ("Authentication failed: " +:+ pretty (status response)
                       +:+ " - " +:+ errorText)))
      (fun error => throw error).

(** [ensureAuthenticated()] *)
Definition ensureAuthenticated : M bool :=
  valid <- isTokenValid ;;
  if valid then ret true
  else try_catch (authenticate VNull VNull) (fun error => ret false).

(** [getHeaders()] *)
Definition getHeaders : M (list (string * string)) :=
  c <- get_this ;;
  ret [("Authorization", "Token " +:+ ToString (token c));
       ("Content-Type", "application/json")].

(** [request(endpoint, method = 'GET', params = null, body = null)] *)
Definition request (endpoint method' : string) (params : option object)
    (body' : value) : M value :=
  isAuthenticated <- ensureAuthenticated ;;
  if negb isAuthenticated then throw (Error "Not authenticated")
  else
    c <- get_this ;;
    let url := baseUrl c +:+ "/" +:+ strip_leading_slash endpoint in
    let url := match params with
               | Some params => url +:+ "?" +:+ URLSearchParams_toString (entries params)
               | None => url
               end in
    headers0 <- getHeaders ;;
    let options :=
      {| method := method';
         headers := headers0;
         body := if ToBoolean body' &&
                    (String.eqb method' "POST" || String.eqb method' "PUT"
                     || String.eqb method' "PATCH")
                 then Some body' else None |} in
    try_catch
      (response <- fetch url options ;;
       response <-
         (if (status response =? 401)%Z then
            _clearStoredToken ;;
            refreshed <- authenticate VNull VNull ;;
            if refreshed then
              headers1 <- getHeaders ;;
              fetch url {| method := method options; headers := headers1;
                           body := body options |}
            else throw (Error "Authentication failed after token refresh")
          else ret response) ;;
       if ok response then response_json response
       else
         errorText <- response_text response ;;
         throw (Error ("API request failed: " +:+ pretty (status response)
                       +:+ " - " +:+ errorText)))
      (fun error => throw error).

(** [getV53aList(page = 1, pageSize = 10, filters = {})] *)
Definition getV53aList (page pageSize : value) (filters : object) : M value :=
  let page := default_to (VNum 1) page in
  let pageSize := default_to (VNum 10) pageSize in
  let params := spread [("page", page); ("page_size", pageSize)] filters in
  request "api/v53a/" "GET" (Some params) VNull.

(** [getV53aDetail(recordId)] *)
Definition getV53aDetail (recordId : value) : M value :=
  request ("api/v53a/" +:+ ToString recordId +:+ "/") "GET" None VNull.

(** [getLastElements(did)] *)
Definition getLastElements (did : value) : M value :=
  request ("api/v53a/" +:+ ToString did +:+ "/last-elements/") "GET" None VNull.

(** [logout()] *)
Definition logout : M unit :=
  _clearStoredToken.

End Client.

(** ** The errors of the client, by the message they are raised with *)

Definition MissingCredentials : exn :=
  Error "No credentials provided for authentication".

Definition AuthenticationFailed (status : Z) (body : string) : exn :=
  Error ("Authentication failed: " +:+ pretty status +:+ " - " +:+ body).

Definition NotAuthenticated : exn :=
  Error "Not authenticated".

Definition RequestFailed (status : Z) (body : string) : exn :=
  Error ("API request failed: " +:+ pretty status +:+ " - " +:+ body).

(** ** Vocabulary of the statements *)

(** The store holds nothing under [k] (no store, nothing held). *)
Definition store_lacks (k : string) (w : World) : Prop :=
  match localStorage w with
  | Some s => s !! k = None
  | None => True
  end.

(** The store after both token entries are removed. *)
Definition without_token_entries (s : option (gmap string string)) :
    option (gmap string string) :=
  (fun m => delete "api_token_expiry" (delete "api_token" m)) <$> s.

(** Nothing outside the client object and the store moved: no call of
    [fetch], no time passed. *)
Definition no_network (w w' : World) : Prop :=
  exchanges w' = exchanges w /\ network w' = network w /\ clock w' = clock w.

(** The credentials [authenticate(username, password)] works with: an
    argument that is given (truthy) replaces the stored one. *)
Definition effective (given stored : value) : value :=
  if ToBoolean given then given else stored.

(** The call of [fetch] that [authenticate] makes for a client [c], and
    what it met. *)
Definition auth_exchange (c : ApiClient) (out : Outcome) : Exchange :=
  {| ex_url := baseUrl c +:+ "/api-token-auth/";
     ex_options := {| method := "POST";
                      headers := [("Content-Type", "application/json")];
                      body := Some (VObj [("username", username c);
                                          ("password", password c)]) |};
     ex_outcome := out |}.

(** The URL, the headers and the options that [request] computes for a
    client [c]. *)
Definition request_url (c : ApiClient) (endpoint : string)
    (params : option object) : string :=
  let url := baseUrl c +:+ "/" +:+ strip_leading_slash endpoint in
  match params with
  | Some params => url +:+ "?" +:+ URLSearchParams_toString (entries params)
  | None => url
  end.

Definition request_headers (c : ApiClient) : list (string * string) :=
  [("Authorization", "Token " +:+ ToString (token c));
   ("Content-Type", "application/json")].

Definition request_options (c : ApiClient) (method' : string) (body' : value) :
    Options :=
  {| method := method';
     headers := request_headers c;
     body := if ToBoolean body' &&
                (String.eqb method' "POST" || String.eqb method' "PUT"
                 || String.eqb method' "PATCH")
             then Some body' else None |}.

(** What [request] makes of the response it ends with. *)
Definition response_result (r : Response) : Completion value :=
  if ok r then
    match json r with
    | Some v => Normal v
    | None => Throw SyntaxError
    end
  else Throw (RequestFailed (status r) (text r)).

(** What a call of [fetch] that met [out] yields. *)
Definition fetch_result (out : Outcome) : Completion Response :=
  match out with
  | NetworkError => Throw (TypeError "fetch failed")
  | Replied r => Normal r
  end.

(** The stored token that the constructor loads: both entries, neither
    empty. *)
Definition stored_pair (w : World) : option (string * string) :=
  match localStorage w with
  | Some s =>
      match s !! "api_token", s !! "api_token_expiry" with
      | Some t, Some e =>
          if negb (String.eqb t "") && negb (String.eqb e "") then Some (t, e)
          else None
      | _, _ => None
      end
  | None => None
  end.

(** A date more than five minutes after [now]. *)
Definition fresh_at (d : Date) (now : Z) : bool :=
  match d with
  | DateAt t => (5 * 60 * 1000 <? t - now)%Z
  | InvalidDate => false
  end.

(** The expiry [authenticate] sets from the [expires_at] of a 2xx
    response read at time [now]: the date [new Date] makes of it, valid or
    not; 24 hours from [now] where [new Date] throws. *)
Definition expiry_after `{Host} (expires_at : value) (now : Z) : Date :=
  if stringifiable expires_at then Date_of_value expires_at
  else TimeClip (now + 24 * 60 * 60 * 1000).

(** The base URL as the constructor keeps it. *)
Definition kept_baseUrl (baseUrl' : string) : string :=
  if endsWith_slash baseUrl' then slice_0_m1 baseUrl' else baseUrl'.

(** The [params] object that [getV53aList] builds. *)
Definition list_params (page pageSize : value) (filters : object) : object :=
  spread [("page", default_to (VNum 1) page);
          ("page_size", default_to (VNum 10) pageSize)] filters.

(** An object has no two properties of one name. *)
Definition wf_object (o : object) : Prop := List.NoDup (map fst o).

(** ** More of the class: file names and the structure of a record *)

(** *** Text *)






(** [typeof v] *)
Definition typeof (v : value) : string :=
  match v with
  | VUndefined => "undefined"
  | VNull => "object"
  | VBool _ => "boolean"
  | VNum _ => "number"
  | VStr _ => "string"
  | VArr _ | VObj _ => "object"
  end.

(** [Array.isArray(v)] *)
Definition isArray (v : value) : bool :=
  match v with
  | VArr _ => true
  | _ => false
  end.

Definition hex_digit_lower (n : N) : ascii :=
  ascii_of_N (if (n <? 10)%N then 48 + n else 87 + n)%N.

(** A character inside a JSON string: the quote, the backslash and the
    control characters are escaped. *)
Definition json_escape (c : ascii) : string :=
  let n := N_of_ascii c in
  if (n =? 34)%N then "\" +:+ String c EmptyString
  else if (n =? 92)%N then "\\"
  else if (n =? 8)%N then "\b"
  else if (n =? 9)%N then "\t"
  else if (n =? 10)%N then "\n"
  else if (n =? 12)%N then "\f"
  else if (n =? 13)%N then "\r"
  else if (n <? 32)%N then
    "\u00" +:+ String (hex_digit_lower (n / 16))
                 (String (hex_digit_lower (n mod 16)) EmptyString)
  else String c EmptyString.

Fixpoint json_quote_chars (s : string) : string :=
  match s with
  | EmptyString => EmptyString
  | String c rest => json_escape c +:+ json_quote_chars rest
  end.

(** A string as JSON writes it, between quotes. *)
Definition json_quote (s : string) : string :=
  let q := String (ascii_of_N 34) EmptyString in
  q +:+ json_quote_chars s +:+ q.

(** The text of [JSON.stringify(v)] without indentation.  Inside an array
    [undefined] is written [null]; a property that is [undefined] is left
    out; the properties come in the order of [Object.entries]. *)
Fixpoint json_text (v : value) : string :=
  match v with
  | VUndefined | VNull => "null"
  | VBool true => "true"
  | VBool false => "false"
  | VNum n => pretty n
  | VStr s => json_quote s
  | VArr elems => "[" +:+ join "," (map json_text elems) +:+ "]"
  | VObj props =>
      "{" +:+
      join "," (map (fun p => ToString (snd p))
                  (entries (flat_map (fun p =>
                                        match p with
                                        | (k, x) =>
                                            match x with
                                            | VUndefined => []
                                            | _ => [(k, VStr (json_quote k +:+ ":"
                                                              +:+ json_text x))]
                                            end
                                        end) props)))
      +:+ "}"
  end.

(** [JSON.stringify(v)]: [undefined] (here [None]) for [undefined]. *)
Definition JSON_stringify (v : value) : option string :=
  match v with
  | VUndefined => None
  | _ => Some (json_text v)
  end.

(** [o[k] = v] by assignment, for an object [v]: under the name
    [__proto__] it sets the prototype and creates no property. *)
Definition obj_assign (o : object) (k : string) (v : value) : object :=
  if String.eqb k "__proto__" then o else obj_set o k v.

(** *** debugRecordStructure *)

(** The [debug] object. *)
Record DebugInfo : Type := {
  fields : object;
  arrayFields : object;
  listFields : object
}.

(** [{ length: value.length, firstElement: ..., lastElement: ... }] for an
    array [value]. *)
Definition array_summary (elems : list value) : value :=
  VObj [("length", VNum (Z.of_nat (length elems)));
        ("firstElement", match elems with
                         | [] => VNull
                         | first :: _ => first
                         end);
        ("lastElement", List.last elems VNull)].

(** [length] and [substring] count UTF-16 units.  In UTF-8 the first byte of
    a character tells how many units it takes: one, or two for a character
    beyond the basic plane (four bytes); a continuation byte adds none. *)
Definition utf16_units (c : ascii) : nat :=
  let n := N_of_ascii c in
  if (n <? 128)%N then 1%nat
  else if (n <? 192)%N then 0%nat
  else if (n <? 240)%N then 1%nat
  else 2%nat.

(** [text.length] *)
Fixpoint utf16_length (text : string) : nat :=
  match text with
  | EmptyString => 0%nat
  | String c rest => (utf16_units c + utf16_length rest)%nat
  end.

(** The first unit of a character beyond the basic plane, alone: its high
    surrogate, written in the three bytes that generalized UTF-8 gives a
    surrogate. *)
Definition high_surrogate (c : ascii) (rest : string) : string :=
  match rest with
  | String b1 (String b2 _) =>
      let u := (N_of_ascii c mod 8 * 256 + N_of_ascii b1 mod 64 * 4
                + N_of_ascii b2 mod 64 / 16 - 64)%N in
      String (ascii_of_N 237)
        (String (ascii_of_N (160 + u / 64))
           (String (ascii_of_N (128 + u mod 64)) EmptyString))
  | _ => EmptyString
  end.

(** [text.substring(0, n)]: the characters that fit in the first [n]
    units, each with its continuation bytes; where a character of two units
    has one unit left, that unit alone. *)
Fixpoint utf16_prefix (n : nat) (text : string) : string :=
  match text with
  | EmptyString => EmptyString
  | String c rest =>
      match utf16_units c, n with
      | O, _ => String c (utf16_prefix n rest)
      | _, O => EmptyString
      | S O, S n' => String c (utf16_prefix n' rest)
      | _, S O => high_surrogate c rest
      | _, S (S n') => String c (utf16_prefix n' rest)
      end
  end.

(** The preview of a value: the first 100 characters of its JSON text, and
    an ellipsis when there are more. *)
Definition preview_of (text : string) : string :=
  utf16_prefix 100 text +:+
  (if (100 <? utf16_length text)%nat then "..." else "").

Definition expectedFields : list string :=
  ["sp_array"; "es_array"; "p1_array"; "c1_array"; "p2_array"; "c2_array";
   "p3_array"; "c3_array"; "p4_array"; "c4_array"; "p5_array"; "c5_array";
   "p6_array"; "c6_array"; "p7_array"; "c7_array"].

(** One turn of the first loop, for the entry [(key, value)]. *)
Definition debug_entry (debug : DebugInfo) (key : string) (value : value) :
    Completion DebugInfo :=
  let valueType := if isArray value then "array" else typeof value in
  match JSON_stringify value with
  | None => Throw (TypeError "Cannot read properties of undefined")
  | Some text =>
      let valuePreview := preview_of text in
      let fields' :=
        obj_assign (fields debug) key
          (VObj [("type", VStr valueType); ("preview", VStr valuePreview)]) in
      Normal {| fields := fields';
                arrayFields := arrayFields debug;
                listFields :=
                  match value with
                  | VArr elems =>
                      obj_assign (listFields debug) key (array_summary elems)
                  | _ => listFields debug
                  end |}
  end.

Fixpoint debug_entries (debug : DebugInfo) (l : list (string * value)) :
    Completion DebugInfo :=
  match l with
  | [] => Normal debug
  | (key, value) :: rest =>
      match debug_entry debug key value with
      | Normal debug' => debug_entries debug' rest
      | Throw e => Throw e
      end
  end.

(** One turn of the second loop, for the expected field [field]. *)
Definition debug_expected (record : object) (debug : DebugInfo) (field : string) :
    DebugInfo :=
  {| fields := fields debug;
     arrayFields :=
       obj_assign (arrayFields debug) field
         match obj_get record field with
         | Some (VArr elems) => array_summary elems
         | Some value => VObj [("type", VStr (typeof value)); ("isArray", VBool false)]
         | None => VObj [("found", VBool false)]
         end;
     listFields := listFields debug |}.

(** [debugRecordStructure(record)] for an object [record]. *)
Definition debugRecordStructure (record : object) : Completion DebugInfo :=
  let debug := {| fields := []; arrayFields := []; listFields := [] |} in
  match debug_entries debug (entries record) with
  | Normal debug => Normal (fold_left (debug_expected record) expectedFields debug)
  | Throw e => Throw e
  end.

(** *** _generateFilename *)

Section Filenames.
Context `{Host}.


End Filenames.

(** *** Vocabulary for text *)

(** The character occurs in the text; the text is made of the allowed
    characters only; how often a character occurs. *)
Fixpoint has_char (c : ascii) (s : string) : bool :=
  match s with
  | EmptyString => false
  | String c' rest => Ascii.eqb c' c || has_char c rest
  end.

Fixpoint chars_in (allowed s : string) : bool :=
  match s with
  | EmptyString => true
  | String c rest => has_char c allowed && chars_in allowed rest
  end.

Fixpoint count_char (c : ascii) (s : string) : nat :=
  match s with
  | EmptyString => 0%nat
  | String c' rest => ((if Ascii.eqb c' c then 1 else 0) + count_char c rest)%nat
  end.

(** The characters that form-urlencoding leaves as they are, and the
    digits it writes a byte with. *)
Definition unreserved_chars : string :=
  "ABCDEFGHIJKLMNOPQRSTUVWXYZabcdefghijklmnopqrstuvwxyz0123456789*-._".

Definition hex_digits : string := "0123456789ABCDEF".

(** The characters of a form-urlencoded name or value. *)
Definition urlencoded_chars : string :=
  "ABCDEFGHIJKLMNOPQRSTUVWXYZabcdefghijklmnopqrstuvwxyz0123456789*-._+%".

(** The reading of a form-urlencoded name or value, as the receiver does
    it: [+] is a space and [%XX] the byte XX. *)
Definition hex_value (c : ascii) : option N :=
  let n := N_of_ascii c in
  if ((48 <=? n) && (n <=? 57))%N then Some (n - 48)%N
  else if ((65 <=? n) && (n <=? 70))%N then Some (n - 55)%N
  else if ((97 <=? n) && (n <=? 102))%N then Some (n - 87)%N
  else None.

Fixpoint urldecode (s : string) : string :=
  match s with
  | EmptyString => EmptyString
  | String c rest =>
      if Ascii.eqb c "+" then String " " (urldecode rest)
      else if Ascii.eqb c "%" then
        match rest with
        | String h1 (String h2 rest') =>
            match hex_value h1, hex_value h2 with
            | Some a, Some b => String (ascii_of_N (16 * a + b)) (urldecode rest')
            | _, _ => String c (urldecode rest)
            end
        | _ => String c (urldecode rest)
        end
      else String c (urldecode rest)
  end.


(** What [debugRecordStructure] notes in [arrayFields] for a field. *)
Definition expected_note (record : object) (field : string) : value :=
  match obj_get record field with
  | Some (VArr elems) => array_summary elems
  | Some v => VObj [("type", VStr (typeof v)); ("isArray", VBool false)]
  | None => VObj [("found", VBool false)]
  end.

(** ** A host and some worlds to run the client in *)

(** A host that knows one timestamp, 2025-05-21T13:30:41.834Z. *)
Definition sample_host : Host :=
  {| Date_parse := fun s =>
       if String.eqb s "2025-05-21T13:30:41.834Z" then DateAt 1747834241834
       else InvalidDate;
     Date_toISOString := fun t =>
       if (t =? 1747834241834)%Z then "2025-05-21T13:30:41.834Z"
       else "1970-01-01T00:00:00.000Z" |}.

(** A client holding the token [abc], good for another 24 hours. *)
Definition logged_in : ApiClient :=
  {| baseUrl := "http://aiprediction.us";
     username := VStr "alice";
     password := VStr "secret";
     token := VStr "abc";
     tokenExpiry := Some (DateAt 1747834241834) |}.

(** The same client before it has a token, and one without credentials. *)
Definition logged_out : ApiClient :=
  {| baseUrl := "http://aiprediction.us";
     username := VStr "alice";
     password := VStr "secret";
     token := VNull;
     tokenExpiry := None |}.

Definition anonymous : ApiClient :=
  {| baseUrl := "http://aiprediction.us";
     username := VNull;
     password := VNull;
     token := VNull;
     tokenExpiry := None |}.

Definition token_store : gmap string string :=
  <["api_token_expiry" := "2025-05-21T13:30:41.834Z"]> (<["api_token" := "abc"]> ∅).

(** A world at 2025-05-20T13:30:41.834Z in which nothing was fetched yet. *)
Definition world_of (c : ApiClient) (store : option (gmap string string))
    (net : list (Z * Outcome)) : World :=
  {| this := c; localStorage := store; clock := 1747747841834;
     network := net; exchanges := [] |}.

Definition reply (st : Z) (txt : string) (js : option value) : Z * Outcome :=
  (100%Z, Replied {| status := st; text := txt; json := js |}).



(** The server answers the authentication without [expires_at]. *)
Definition world_no_expires_at : World :=
  world_of logged_out (Some ∅)
    [reply 200 "{...}" (Some (VObj [("token", VStr "abc")]))].

(** The server answers with an [expires_at] that has no primitive value. *)
Definition world_expires_at_object : World :=
  world_of logged_out (Some ∅)
    [reply 200 "{...}" (Some (VObj [("token", VStr "abc");
                                    ("expires_at", VObj [("toString", VNum 1)])]))].

(** The same where there is no [localStorage]. *)
Definition world_no_expires_at_no_store : World :=
  world_of logged_out None
    [reply 200 "{...}" (Some (VObj [("token", VStr "abc")]))].

(** The store holds a token and no expiry. *)
Definition world_lone_token : World :=
  world_of anonymous (Some (<["api_token" := "abc"]> ∅)) [].

(** The server lists the records. *)
Definition world_listing : World :=
  world_of logged_in (Some token_store)
    [reply 200 "{...}" (Some (VObj [("count", VNum 0); ("results", VArr [])]))].

(** The credentials are refused. *)
Definition world_refused : World :=
  world_of logged_out (Some ∅) [reply 400 "bad credentials" None].

(** The token is exactly five minutes from its expiry. *)
Definition world_five_minutes_left : World :=
  {| this := logged_in; localStorage := Some token_store;
     clock := 1747834241834 - 5 * 60 * 1000; network := []; exchanges := [] |}.

(** A new client finds a stored token: a good one, and one whose expiry
    does not parse. *)
Definition world_stored_token : World :=
  world_of anonymous (Some token_store) [].

Definition world_stored_garbage : World :=
  world_of anonymous
    (Some (<["api_token_expiry" := "tomorrow"]> (<["api_token" := "abc"]> ∅))) [].

(** The server answers the authentication with a token good for 24 hours,
    then lists the records. *)
Definition world_scenario : World :=
  world_of logged_out (Some ∅)
    [reply 200 "{...}" (Some (VObj [("token", VStr "abc");
                                    ("expires_at", VStr "2025-05-21T13:30:41.834Z")]));
     reply 200 "{...}" (Some (VObj [("count", VNum 0); ("results", VArr [])]))].


(** A record as the server sends them, cut short. *)
Definition sample_record : object :=
  [("id", VNum 363); ("did", VNum 250520);
   ("sp_array", VArr [VNum 5921; VNum 5930; VNum 5944]);
   ("es_array", VArr []);
   ("p1_array", VStr "n/a")].

(** A record with text beyond ASCII and with a long text. *)
Definition sixty_umlauts : string :=
  "üüüüüüüüüüüüüüüüüüüüüüüüüüüüüüüüüüüüüüüüüüüüüüüüüüüüüüüüüüüü".

Definition sample_record_text : object :=
  [("did", VNum 250520);
   ("es_array", VArr []);
   ("note", VStr sixty_umlauts);
   ("long", VStr "aaaaaaaaaaaaaaaaaaaaaaaaaaaaaaaaaaaaaaaaaaaaaaaaaaaaaaaaaaaaaaaaaaaaaaaaaaaaaaaaaaaaaaaaaaaaaaaaaaaaaaaaaaaaaaaaaaaaaaaa")].

(** The server accepts the credentials and sends no token. *)
Definition world_no_token : World :=
  world_of logged_out (Some ∅) [reply 200 "{}" (Some (VObj []))].


(** The invariant of C9 as the claim words it. *)
Definition token_invariant_as_claimed (w : World) : Prop :=
  isTokenValid w = (Normal true, w) \/
  (token (this w) = VNull /\ tokenExpiry (this w) = None /\
   store_lacks "api_token" w /\ store_lacks "api_token_expiry" w).

(** ** Properties *)

(** *** Objects *)

Section Objects.

Lemma obj_get_set (o : object) (k k' : string) (v : value) :
  obj_get (obj_set o k v) k' = if String.eqb k k' then Some v else obj_get o k'.
Proof.
  induction o as [|[k0 v0] o IH]; cbn [obj_set obj_get].
  - destruct (String.eqb k k'); reflexivity.
  - destruct (String.eqb k0 k) eqn:Hk0; cbn [obj_get].
    + apply String.eqb_eq in Hk0. subst k0. destruct (String.eqb k k'); reflexivity.
    + rewrite IH. destruct (String.eqb k0 k') eqn:Hk0'; [|reflexivity].
      apply String.eqb_eq in Hk0'. subst k0. rewrite String.eqb_sym, Hk0. reflexivity.
Qed.

Lemma obj_set_keys (o : object) (k : string) (v : value) :
  map fst (obj_set o k v) = map fst o \/
  (~ In k (map fst o) /\ map fst (obj_set o k v) = (map fst o ++ [k])%list).
Proof.
  induction o as [|[k0 v0] o IH]; cbn [obj_set map fst].
  - right. split; [intros []|reflexivity].
  - destruct (String.eqb k0 k) eqn:Hk0; cbn [map fst].
    + left. reflexivity.
    + apply String.eqb_neq in Hk0. destruct IH as [IH|[Hnin IH]].
      * left. rewrite IH. reflexivity.
      * right. split; [intros [Heq|Hin]; [congruence|contradiction]|].
        rewrite IH. reflexivity.
Qed.

Lemma obj_set_wf (o : object) (k : string) (v : value) :
  wf_object o -> wf_object (obj_set o k v).
Proof.
  unfold wf_object. intros Hwf. destruct (obj_set_keys o k v) as [->|[Hnin ->]].
  - exact Hwf.
  - apply List.NoDup_app; [exact Hwf | repeat constructor; intros [] |].
    intros x Hx [<-|[]]. contradiction.
Qed.

Lemma obj_get_In (o : object) (k : string) (v : value) :
  obj_get o k = Some v -> In (k, v) o.
Proof.
  induction o as [|[k0 v0] o IH]; cbn [obj_get]; [discriminate|].
  destruct (String.eqb k0 k) eqn:Hk0.
  - apply String.eqb_eq in Hk0. intros [= ->]. subst. left. reflexivity.
  - intros Hget. right. apply IH, Hget.
Qed.

Lemma In_obj_get (o : object) (k : string) (v : value) :
  wf_object o -> In (k, v) o -> obj_get o k = Some v.
Proof.
  unfold wf_object. induction o as [|[k0 v0] o IH]; cbn [map fst obj_get]; [intros _ []|].
  intros Hwf [Heq|Hin].
  - injection Heq as -> ->. rewrite String.eqb_refl. reflexivity.
  - apply List.NoDup_cons_iff in Hwf as [Hnin Hwf].
    destruct (String.eqb k0 k) eqn:Hk0; [|apply IH; assumption].
    apply String.eqb_eq in Hk0. subst k0. exfalso. apply Hnin.
    apply (in_map fst) in Hin. exact Hin.
Qed.

Lemma insert_by_index_perm (i : N) (p : string * value) (l : list (N * (string * value))) :
  Permutation (insert_by_index i p l) ((i, p) :: l).
Proof.
  induction l as [|[j q] l IH]; cbn [insert_by_index]; [reflexivity|].
  destruct (i <? j)%N; [reflexivity|].
  rewrite IH. apply perm_swap.
Qed.

Lemma entries_perm (o : object) : Permutation (entries o) o.
Proof.
  unfold entries. induction o as [|[k v] o IH]; [reflexivity|].
  cbn [index_props named_props List.filter fst].
  destruct (array_index k) as [i|].
  - rewrite insert_by_index_perm. cbn [map snd app]. constructor. exact IH.
  - rewrite <- Permutation_middle. constructor. exact IH.
Qed.

Lemma entries_In (o : object) (p : string * value) : In p (entries o) <-> In p o.
Proof.
  split; apply Permutation_in; [|symmetry]; apply entries_perm.
Qed.

Lemma entries_wf (o : object) : wf_object o -> wf_object (entries o).
Proof.
  unfold wf_object. apply Permutation_NoDup, Permutation_map. symmetry. apply entries_perm.
Qed.

Lemma fold_obj_set_wf (l : list (string * value)) (base : object) :
  wf_object base ->
  wf_object (fold_left (fun acc p => obj_set acc (fst p) (snd p)) l base).
Proof.
  revert base. induction l as [|[k v] l IH]; intros base Hwf; cbn [fold_left fst snd].
  - exact Hwf.
  - apply IH, obj_set_wf, Hwf.
Qed.

Lemma fold_obj_set_other (l : list (string * value)) (base : object) (k : string) :
  ~ In k (map fst l) ->
  obj_get (fold_left (fun acc p => obj_set acc (fst p) (snd p)) l base) k = obj_get base k.
Proof.
  revert base. induction l as [|[k0 v0] l IH]; intros base Hnin; cbn [fold_left fst snd].
  - reflexivity.
  - cbn [map fst] in Hnin. rewrite IH by (intros Hin; apply Hnin; right; exact Hin).
    rewrite obj_get_set. destruct (String.eqb k0 k) eqn:Hk0; [|reflexivity].
    apply String.eqb_eq in Hk0. exfalso. apply Hnin. left. exact Hk0.
Qed.

Lemma fold_obj_set_In (l : list (string * value)) (base : object) (k : string) (v : value) :
  List.NoDup (map fst l) -> In (k, v) l ->
  obj_get (fold_left (fun acc p => obj_set acc (fst p) (snd p)) l base) k = Some v.
Proof.
  revert base. induction l as [|[k0 v0] l IH]; intros base Hnd Hin; [destruct Hin|].
  cbn [fold_left fst snd]. cbn [map fst] in Hnd. apply List.NoDup_cons_iff in Hnd as [Hnin Hnd].
  destruct Hin as [Heq|Hin].
  - injection Heq as -> ->. rewrite fold_obj_set_other by exact Hnin.
    rewrite obj_get_set, String.eqb_refl. reflexivity.
  - apply IH; assumption.
Qed.

(** A property of the spread object overrides the one written before it;
    a property written before stays when the spread object has none of
    that name. *)
Lemma spread_get (base src : object) (k : string) :
  wf_object src ->
  obj_get (spread base src) k =
    match obj_get src k with
    | Some v => Some v
    | None => obj_get base k
    end.
Proof.
  intros Hwf. unfold spread. destruct (obj_get src k) as [v|] eqn:Hget.
  - apply fold_obj_set_In; [apply entries_wf, Hwf|].
    apply entries_In, obj_get_In, Hget.
  - apply fold_obj_set_other. intros Hin. apply in_map_iff in Hin as [[k' v] [Hk Hin]].
    cbn in Hk. subst k'. apply (proj1 (entries_In _ _)) in Hin.
    rewrite (In_obj_get _ _ _ Hwf Hin) in Hget. discriminate.
Qed.

Lemma spread_wf (base src : object) : wf_object base -> wf_object (spread base src).
Proof. apply fold_obj_set_wf. Qed.

Lemma entries_get (o : object) (k : string) (v : value) :
  wf_object o -> (In (k, v) (entries o) <-> obj_get o k = Some v).
Proof.
  intros Hwf. rewrite entries_In. split; [apply In_obj_get, Hwf | apply obj_get_In].
Qed.

End Objects.


Section Properties.
Context `{Host}.

(** One step of a run: the monad and the primitives unfolded, the fields
    of the records read. *)
Ltac run :=
  cbv [bind ret throw try_catch get_this set_this set_token set_tokenExpiry
       set_username set_password localStorage_defined set_localStorage
       localStorage_getItem localStorage_setItem localStorage_removeItem
       new_Date_now new_Date new_Date_number toISOString response_json
       response_text prop]; cbn [this localStorage clock network exchanges
       baseUrl username password token tokenExpiry fst snd negb andb orb
       stringifiable].

(** Case analysis on the innermost test that blocks the run. *)
Ltac break_match :=
  match goal with
  | |- context [match ?x with _ => _ end] =>
      lazymatch x with
      | context [match _ with _ => _ end] => fail
      | _ => destruct x eqn:?
      end
  end.

(** [isTokenValid] only looks. *)
Lemma isTokenValid_pure (w : World) :
  exists b, isTokenValid w = (Normal b, w).
Proof.
  unfold isTokenValid. run.
  destruct (negb (ToBoolean (token (this w))) || negb (ToBoolean_date (tokenExpiry (this w))));
    eauto.
Qed.

(** C3.  [isTokenValid] answers true exactly when the token and the expiry
    are both present (the token is not null, undefined or empty, the expiry
    is a date) and the expiry lies more than five minutes after the current
    time; it answers false whenever the expiry minus the current time is at
    most five minutes; and it leaves the world as it found it: no call of
    [fetch], no field or store entry changed. *)
Theorem isTokenValid_spec (w : World) :
  exists b : bool,
    isTokenValid w = (Normal b, w) /\
    (b = true <->
       ToBoolean (token (this w)) = true /\
       exists t, tokenExpiry (this w) = Some (DateAt t) /\
                 (t - clock w > 5 * 60 * 1000)%Z) /\
    (forall t, tokenExpiry (this w) = Some (DateAt t) ->
               (t - clock w <= 5 * 60 * 1000)%Z -> b = false).
Proof.
  unfold isTokenValid. run.
  assert (Hno : forall e : option Date,
             (forall t, e <> Some (DateAt t)) \/ ToBoolean (token (this w)) = false ->
             (false = true <->
                ToBoolean (token (this w)) = true /\
                exists t, e = Some (DateAt t) /\ (t - clock w > 5 * 60 * 1000)%Z)).
  { intros e He. split; [discriminate|].
    intros [Htok [t [Ht _]]]. destruct He as [He|He]; [destruct (He t Ht) | congruence]. }
  destruct (ToBoolean (token (this w))) eqn:Htok; cbn.
  - destruct (tokenExpiry (this w)) as [[|t]|] eqn:Hexp; cbn.
    + exists false. split; [reflexivity|]. split; [|reflexivity].
      apply Hno. left. discriminate.
    + exists (300000 <? t - clock w)%Z. split; [reflexivity|]. split; [split|].
      * intros Hb. split; [reflexivity|]. exists t. split; [reflexivity|].
        apply Z.ltb_lt in Hb. lia.
      * intros [_ [t' [Ht' Hgt]]]. injection Ht' as <-. apply Z.ltb_lt. lia.
      * intros t' Ht' Hle. injection Ht' as <-. apply Z.ltb_ge. lia.
    + exists false. split; [reflexivity|]. split; [|reflexivity].
      apply Hno. left. discriminate.
  - exists false. split; [reflexivity|]. split; [|reflexivity].
    apply Hno. right. reflexivity.
Qed.

Lemma clearStoredToken_run (w : World) :
  exists w',
    _clearStoredToken w = (Normal tt, w') /\
    token (this w') = VNull /\
    tokenExpiry (this w') = None /\
    localStorage w' = without_token_entries (localStorage w) /\
    store_lacks "api_token" w' /\
    store_lacks "api_token_expiry" w' /\
    no_network w w' /\
    baseUrl (this w') = baseUrl (this w) /\
    username (this w') = username (this w) /\
    password (this w') = password (this w).
Proof.
  unfold _clearStoredToken, store_lacks, no_network, without_token_entries.
  destruct w as [c [s|] clk net ex]; run; cbn; eexists; (split; [reflexivity|]);
    cbn; rewrite ?lookup_delete_eq; repeat split.
  rewrite lookup_delete_ne by discriminate. apply lookup_delete_eq.
Qed.

(** C8.  [logout] sets the token and the expiry to null, removes the
    entries [api_token] and [api_token_expiry] from the store and nothing
    else from it, calls no [fetch], and keeps the base URL and the
    credentials; [isTokenValid] is false afterwards. *)
Theorem logout_spec (w : World) :
  exists w',
    logout w = (Normal tt, w') /\
    token (this w') = VNull /\
    tokenExpiry (this w') = None /\
    localStorage w' = without_token_entries (localStorage w) /\
    store_lacks "api_token" w' /\
    store_lacks "api_token_expiry" w' /\
    no_network w w' /\
    baseUrl (this w') = baseUrl (this w) /\
    username (this w') = username (this w) /\
    password (this w') = password (this w) /\
    isTokenValid w' = (Normal false, w').
Proof.
  unfold logout.
  destruct (clearStoredToken_run w) as (w' & Hrun & Htok & Hexp & Hrest).
  exists w'. split; [exact Hrun|]. split; [exact Htok|]. split; [exact Hexp|].
  repeat (split; [apply Hrest|]).
  unfold isTokenValid. run. rewrite Htok. reflexivity.
Qed.

(** C4.  When, after the arguments have replaced the stored credentials, the
    username or the password is missing, [authenticate] throws "No
    credentials provided for authentication" without calling [fetch], and
    the token, the expiry and the store are as before. *)
Theorem authenticate_missing_credentials (w : World) (u p : value) :
  ToBoolean (effective u (username (this w))) = false \/
  ToBoolean (effective p (password (this w))) = false ->
  exists w',
    authenticate u p w = (Throw MissingCredentials, w') /\
    no_network w w' /\
    token (this w') = token (this w) /\
    tokenExpiry (this w') = tokenExpiry (this w) /\
    localStorage w' = localStorage w.
Proof.
  unfold effective, no_network, MissingCredentials.
  destruct w as [[b su sp tok exp] s clk net ex]. cbn [this username password].
  intros Hmiss. unfold authenticate.
  destruct (ToBoolean u) eqn:Hu, (ToBoolean p) eqn:Hp; run;
    rewrite ?Hu, ?Hp; cbn;
    destruct Hmiss as [Hm|Hm]; try congruence; rewrite Hm; cbn;
    rewrite ?orb_true_r; eexists; repeat split.
Qed.

(** *** What a call of [authenticate] leaves behind *)

Lemma authenticate_exchanges (u p : value) (w w' : World) (c : Completion bool) :
  authenticate u p w = (c, w') ->
  baseUrl (this w') = baseUrl (this w) /\
  username (this w') = effective u (username (this w)) /\
  password (this w') = effective p (password (this w)) /\
  ((c = Throw MissingCredentials /\ no_network w w') \/
   (exists out, exchanges w' = (exchanges w ++ [auth_exchange (this w') out])%list) /\
   (c = Normal true \/ exists e, c = Throw e)).
Proof.
  unfold effective, no_network, MissingCredentials, auth_exchange.
  destruct w as [[b su sp tok exp] s clk net ex].
  unfold authenticate, _saveToken, fetch, record_exchange.
  destruct (ToBoolean u) eqn:Hu, (ToBoolean p) eqn:Hp; run.
  all: repeat (break_match; run).
  all: intros Heq; inversion Heq; subst; clear Heq; cbn; repeat split; eauto 8.
Qed.

Lemma authenticate_true (u p : value) (w w' : World) (b : bool) :
  authenticate u p w = (Normal b, w') -> b = true.
Proof.
  intros Hrun. destruct (authenticate_exchanges _ _ _ _ _ Hrun) as (_ & _ & _ & Hc).
  destruct Hc as [[Hc _]|[_ [Hc|[e Hc]]]]; congruence.
Qed.

(** C5.  When [isTokenValid] holds, [ensureAuthenticated] answers true and
    leaves the world as it is (no call of [fetch]).  Otherwise it calls
    [authenticate()] on the stored credentials, and what that call throws
    becomes the answer false. *)
Theorem ensureAuthenticated_spec (w : World) :
  (isTokenValid w = (Normal true, w) ->
   ensureAuthenticated w = (Normal true, w)) /\
  (isTokenValid w = (Normal false, w) ->
   forall c w', authenticate VNull VNull w = (c, w') ->
     username (this w') = username (this w) /\
     password (this w') = password (this w) /\
     ensureAuthenticated w =
       (match c with
        | Normal _ => Normal true
        | Throw _ => Normal false
        end, w')).
Proof.
  unfold ensureAuthenticated, bind, try_catch, ret. split; intros Hv.
  - rewrite Hv. reflexivity.
  - intros c w' Hauth. rewrite Hv, Hauth.
    destruct (authenticate_exchanges _ _ _ _ _ Hauth) as (_ & Hu & Hp & _).
    repeat split; [exact Hu | exact Hp |].
    destruct c as [b|e]; [|reflexivity].
    rewrite (authenticate_true _ _ _ _ _ Hauth). reflexivity.
Qed.

Lemma ensureAuthenticated_returns (w : World) :
  exists b w', ensureAuthenticated w = (Normal b, w').
Proof.
  unfold ensureAuthenticated, bind, try_catch, ret.
  destruct (isTokenValid_pure w) as [b ->]. destruct b; [eauto|].
  destruct (authenticate VNull VNull w) as [[b|e] w'] eqn:Hauth; eauto.
Qed.

(** *** The course of a call of [request] *)

Lemma fetch_cons (url : string) (o : Options) (w : World) dt out rest :
  network w = (dt, out) :: rest ->
  fetch url o w =
    (fetch_result out,
     record_exchange {| ex_url := url; ex_options := o; ex_outcome := out |} dt rest w).
Proof. unfold fetch. intros ->. destruct out; reflexivity. Qed.

Lemma fetch_cases (url : string) (o : Options) (w : World) :
  exists out dt rest,
    fetch url o w =
      (fetch_result out,
       record_exchange {| ex_url := url; ex_options := o; ex_outcome := out |} dt rest w).
Proof.
  destruct (network w) as [|[dt out] rest] eqn:Hnet.
  - exists NetworkError, 0%Z, []. unfold fetch. rewrite Hnet. reflexivity.
  - exists out, dt, rest. apply fetch_cons, Hnet.
Qed.

(** Once [ensureAuthenticated] has answered true, [request] is one call of
    [fetch] and, on a status of 401, [_clearStoredToken], [authenticate] and
    a second call of [fetch] with fresh headers. *)
Lemma request_run (endpoint method' : string) (params : option object)
    (body' : value) (w w0 : World) :
  ensureAuthenticated w = (Normal true, w0) ->
  request endpoint method' params body' w =
    let url := request_url (this w0) endpoint params in
    match fetch url (request_options (this w0) method' body') w0 with
    | (Throw e, w1) => (Throw e, w1)
    | (Normal r, w1) =>
        if (status r =? 401)%Z then
          match _clearStoredToken w1 with
          | (Throw e, w2) => (Throw e, w2)
          | (Normal _, w2) =>
              match authenticate VNull VNull w2 with
              | (Throw e, w3) => (Throw e, w3)
              | (Normal _, w3) =>
                  match fetch url (request_options (this w3) method' body') w3 with
                  | (Throw e, w4) => (Throw e, w4)
                  | (Normal r', w4) => (response_result r', w4)
                  end
              end
          end
        else (response_result r, w1)
    end.
Proof.
  intros Hens. unfold request, bind at 1. rewrite Hens. cbn [negb].
  unfold bind at 1, get_this at 1. unfold bind at 1, getHeaders at 1.
  unfold bind at 1, get_this at 1, ret at 1.
  change (request_url (this w0) endpoint params) with
    (let url := baseUrl (this w0) +:+ "/" +:+ strip_leading_slash endpoint in
     match params with
     | Some params => url +:+ "?" +:+ URLSearchParams_toString (entries params)
     | None => url
     end).
  cbv zeta. fold (request_headers (this w0)). fold (request_options (this w0) method' body').
  set (url := match params with Some _ => _ | None => _ end).
  set (o := request_options (this w0) method' body').
  unfold try_catch, bind at 1.
  destruct (fetch url o w0) as [[r|e] w1]; [|reflexivity].
  unfold bind at 1.
  destruct (status r =? 401)%Z.
  - unfold bind at 1. destruct (_clearStoredToken w1) as [[[]|e] w2]; [|reflexivity].
    unfold bind at 1.
    destruct (authenticate VNull VNull w2) as [[b|e] w3] eqn:Hauth; [|reflexivity].
    rewrite (authenticate_true _ _ _ _ _ Hauth).
    unfold bind at 1, getHeaders at 1. unfold bind at 1, get_this at 1, ret at 1.
    cbn [method body o request_options]. fold (request_headers (this w3)).
    change {| method := method'; headers := request_headers (this w3); body := _ |}
      with (request_options (this w3) method' body').
    destruct (fetch url (request_options (this w3) method' body') w3) as [[r'|e] w4];
      [|reflexivity].
    unfold response_result, response_json, response_text, bind, ret, throw, RequestFailed.
    destruct (ok r'); [destruct (json r')|]; reflexivity.
  - unfold ret at 1.
    unfold response_result, response_json, response_text, bind, ret, throw, RequestFailed.
    destruct (ok r); [destruct (json r)|]; reflexivity.
Qed.


Lemma response_result_normal (r : Response) (v : value) :
  response_result r = Normal v -> ok r = true /\ json r = Some v.
Proof.
  unfold response_result. destruct (ok r); [|discriminate].
  destruct (json r); [|discriminate]. intros [= ->]. split; reflexivity.
Qed.

(** C6.  [request] begins with [ensureAuthenticated], which always answers.
    On the answer false it throws "Not authenticated" in the world
    [ensureAuthenticated] left, so without a call of [fetch] of its own.  It
    returns a value only when the last call of [fetch] it made, to the URL
    of the request, met a response with a 2xx status, and the value is that
    response's parsed JSON as it is; in every other course it throws. *)
Theorem request_all_or_nothing (endpoint method' : string)
    (params : option object) (body' : value) (w : World) :
  exists (b : bool) (w0 : World),
    ensureAuthenticated w = (Normal b, w0) /\
    (b = false ->
     request endpoint method' params body' w = (Throw NotAuthenticated, w0)) /\
    (forall c w', request endpoint method' params body' w = (c, w') ->
       exists more,
         exchanges w' = (exchanges w0 ++ more)%list /\
         forall v, c = Normal v ->
           b = true /\
           exists earlier x r,
             more = (earlier ++ [x])%list /\
             ex_url x = request_url (this w0) endpoint params /\
             method (ex_options x) = method' /\
             ex_outcome x = Replied r /\
             ok r = true /\
             json r = Some v).
Proof.
  destruct (ensureAuthenticated_returns w) as (b & w0 & Hens).
  exists b, w0. split; [exact Hens|]. destruct b.
  - split; [discriminate|]. intros c w' Hreq.
    rewrite (request_run _ _ _ _ _ _ Hens) in Hreq. cbv zeta in Hreq.
    set (url := request_url (this w0) endpoint params) in *.
    destruct (fetch_cases url (request_options (this w0) method' body') w0)
      as (out & dt & rest & Hf1).
    rewrite Hf1 in Hreq. destruct out as [|r]; cbn [fetch_result] in Hreq.
    { injection Hreq as <- <-. eexists. split; [reflexivity|]. discriminate. }
    destruct (status r =? 401)%Z.
    + match type of Hf1 with _ = (_, ?w1) =>
        destruct (clearStoredToken_run w1)
          as (w2 & Hclear & _ & _ & _ & _ & _ & (Hex & _ & _) & _)
      end.
      rewrite Hclear in Hreq.
      destruct (authenticate VNull VNull w2) as [[a|e] w3] eqn:Hauth.
      * destruct (authenticate_exchanges _ _ _ _ _ Hauth) as (_ & _ & _ & Hc).
        destruct Hc as [[Hc _]|[[auth_out Hax] _]]; [discriminate|].
        destruct (fetch_cases url (request_options (this w3) method' body') w3)
          as (out & dt' & rest' & Hf2).
        rewrite Hf2 in Hreq.
        destruct out as [|r']; cbn [fetch_result] in Hreq; injection Hreq as <- <-;
          cbn [exchanges record_exchange]; rewrite Hax, Hex;
          cbn [exchanges record_exchange]; rewrite <- !app_assoc;
          (eexists; split; [reflexivity|]); [discriminate|].
        intros v Hv. apply response_result_normal in Hv as [Hok Hjson].
        split; [reflexivity|]. eexists [_; _], _, r'.
        split; [reflexivity|]. repeat split; assumption.
      * injection Hreq as <- <-.
        destruct (authenticate_exchanges _ _ _ _ _ Hauth) as (_ & _ & _ & Hc).
        destruct Hc as [[_ (Hc & _)]|[[auth_out Hax] _]].
        -- rewrite Hc, Hex. cbn [exchanges record_exchange].
           eexists. split; [reflexivity|]. discriminate.
        -- rewrite Hax, Hex. cbn [exchanges record_exchange]. rewrite <- !app_assoc.
           eexists. split; [reflexivity|]. discriminate.
    + injection Hreq as <- <-. cbn [exchanges record_exchange].
      eexists. split; [reflexivity|].
      intros v Hv. apply response_result_normal in Hv as [Hok Hjson].
      split; [reflexivity|].
      exists [], {| ex_url := url;
                    ex_options := request_options (this w0) method' body';
                    ex_outcome := Replied r |}, r.
      repeat split; assumption.
  - assert (Hreq : request endpoint method' params body' w = (Throw NotAuthenticated, w0)).
    { unfold request, bind at 1. rewrite Hens. reflexivity. }
    split; [intros _; exact Hreq|]. intros c w' Hreq'. rewrite Hreq in Hreq'.
    injection Hreq' as <- <-. exists []. split; [symmetry; apply app_nil_r|]. discriminate.
Qed.

(** *** Construction *)

Lemma constructor_run (baseUrl' : string) (u p : value) (w : World) :
  exists w',
    constructor baseUrl' u p w = (Normal tt, w') /\
    baseUrl (this w') = kept_baseUrl baseUrl' /\
    username (this w') = default_to VNull u /\
    password (this w') = default_to VNull p /\
    no_network w w' /\
    match stored_pair w with
    | Some (t, e) =>
        if fresh_at (Date_parse e) (clock w) then
          token (this w') = VStr t /\
          tokenExpiry (this w') = Some (Date_parse e) /\
          localStorage w' = localStorage w
        else
          token (this w') = VNull /\
          tokenExpiry (this w') = None /\
          localStorage w' = without_token_entries (localStorage w)
    | None =>
        token (this w') = VNull /\
        tokenExpiry (this w') = None /\
        localStorage w' = localStorage w
    end.
Proof.
  unfold stored_pair, no_network, without_token_entries, kept_baseUrl.
  destruct w as [c [s|] clk net ex]; cbn [localStorage clock network exchanges].
  2:{ eexists. split; [reflexivity|]. cbn. repeat split. }
  unfold constructor, _loadStoredToken, isTokenValid, _clearStoredToken.
  run.
  destruct (s !! "api_token") as [t|] eqn:Ht, (s !! "api_token_expiry") as [e|] eqn:He;
    cbn [ToBoolean andb negb];
    try (eexists; split; [reflexivity|]; cbn; repeat split; fail).
  - destruct (negb (String.eqb t "")) eqn:Hte; cbn [andb];
      [destruct (negb (String.eqb e "")) eqn:Hee; cbn [andb]|];
      try (eexists; split; [reflexivity|]; cbn; repeat split; fail).
    run. cbn [ToBoolean ToBoolean_date]. rewrite Hte. cbn [negb orb].
    change (Date_of_value (VStr e)) with (Date_parse e).
    destruct (Date_parse e) as [|x];
      cbn [ToNumber_date number_sub number_gt fresh_at negb]; run.
    + eexists; split; [reflexivity|]; cbn; repeat split.
    + change (5 * 60 * 1000)%Z with 300000%Z.
      destruct (300000 <? x - clk)%Z; cbn [negb]; run;
        eexists; (split; [reflexivity|]); cbn; repeat split.
  - destruct (negb (String.eqb t "")); cbn [andb];
      eexists; split; try reflexivity; cbn; repeat split.
Qed.

Lemma stored_pair_Some (w : World) (t e : string) :
  stored_pair w = Some (t, e) ->
  exists s,
    localStorage w = Some s /\
    s !! "api_token" = Some t /\
    s !! "api_token_expiry" = Some e /\
    ToBoolean (VStr t) = true /\
    ToBoolean (VStr e) = true.
Proof.
  unfold stored_pair. destruct (localStorage w) as [s|] eqn:Hs; [|discriminate].
  destruct (s !! "api_token") as [t'|] eqn:Hst; [|discriminate].
  destruct (s !! "api_token_expiry") as [e'|] eqn:Hse; [|discriminate].
  cbn [ToBoolean].
  destruct (negb (String.eqb t' "")) eqn:Ht; [|discriminate].
  destruct (negb (String.eqb e' "")) eqn:He; [|discriminate].
  intros [= <- <-]. exists s. repeat split; assumption || reflexivity.
Qed.

Lemma isTokenValid_fresh (w : World) (tok : value) (d : Date) :
  token (this w) = tok ->
  tokenExpiry (this w) = Some d ->
  isTokenValid w = (Normal (ToBoolean tok && fresh_at d (clock w)), w).
Proof.
  intros Htok Hexp. unfold isTokenValid. run. rewrite Htok, Hexp.
  cbn [ToBoolean_date negb orb]. rewrite orb_false_r.
  destruct (ToBoolean tok); cbn [negb andb]; [|reflexivity].
  destruct d; reflexivity.
Qed.

Lemma without_token_entries_lacks (w w' : World) :
  localStorage w' = without_token_entries (localStorage w) ->
  store_lacks "api_token" w' /\ store_lacks "api_token_expiry" w'.
Proof.
  unfold store_lacks, without_token_entries. intros ->.
  destruct (localStorage w) as [s|]; cbn; [|split; exact I].
  split; [|apply lookup_delete_eq].
  rewrite lookup_delete_ne by discriminate. apply lookup_delete_eq.
Qed.

(** C9 (amended).  After construction either [isTokenValid] holds for the
    loaded token, or the token and the expiry are null.  When the store
    held both entries, neither empty, the token is loaded and kept with the
    store as it was, or it is dropped and both entries are removed; a
    stored token whose expiry is not more than five minutes ahead (or does
    not parse) is always dropped.  When the store held only one of the
    entries, an empty one, or there is no store, nothing is loaded and the
    store is left as it was. *)
Theorem constructor_token_invariant (baseUrl' : string) (u p : value) (w : World) :
  exists w',
    constructor baseUrl' u p w = (Normal tt, w') /\
    (isTokenValid w' = (Normal true, w') \/
     (token (this w') = VNull /\ tokenExpiry (this w') = None)) /\
    (forall t e, stored_pair w = Some (t, e) ->
       (isTokenValid w' = (Normal true, w') /\
        token (this w') = VStr t /\
        tokenExpiry (this w') = Some (Date_parse e) /\
        localStorage w' = localStorage w) \/
       (token (this w') = VNull /\
        tokenExpiry (this w') = None /\
        store_lacks "api_token" w' /\
        store_lacks "api_token_expiry" w')) /\
    (forall t e, stored_pair w = Some (t, e) ->
       fresh_at (Date_parse e) (clock w) = false ->
       token (this w') = VNull /\
       tokenExpiry (this w') = None /\
       store_lacks "api_token" w' /\
       store_lacks "api_token_expiry" w') /\
    (stored_pair w = None ->
       token (this w') = VNull /\
       tokenExpiry (this w') = None /\
       localStorage w' = localStorage w).
Proof.
  destruct (constructor_run baseUrl' u p w)
    as (w' & Hrun & _ & _ & _ & (_ & _ & Hclk) & Hload).
  exists w'. split; [exact Hrun|].
  destruct (stored_pair w) as [[t e]|] eqn:Hpair.
  - destruct (stored_pair_Some _ _ _ Hpair) as (s & _ & _ & _ & Ht & _).
    destruct (fresh_at (Date_parse e) (clock w)) eqn:Hfresh.
    + destruct Hload as (Htok & Hexp & Hsto).
      assert (Hvalid : isTokenValid w' = (Normal true, w')).
      { rewrite (isTokenValid_fresh w' _ _ Htok Hexp), Ht, Hclk, Hfresh. reflexivity. }
      split; [left; exact Hvalid|]. split; [|split; [|discriminate]].
      * intros t' e' [= <- <-]. left. repeat split; assumption.
      * intros t' e' [= <- <-] Hf. congruence.
    + destruct Hload as (Htok & Hexp & Hsto).
      destruct (without_token_entries_lacks _ _ Hsto) as [Hl1 Hl2].
      split; [right; split; assumption|]. split; [|split; [|discriminate]].
      * intros t' e' _. right. repeat split; assumption.
      * intros t' e' _ _. repeat split; assumption.
  - destruct Hload as (Htok & Hexp & Hsto).
    split; [right; split; assumption|]. split; [discriminate|]. split; [discriminate|].
    intros _. repeat split; assumption.
Qed.

(** *** The request that goes out *)

Lemma append_assoc (a b c : string) : (a +:+ b) +:+ c = a +:+ b +:+ c.
Proof.
  induction a as [|x a IH]; [reflexivity|].
  change (String x ((a +:+ b) +:+ c) = String x (a +:+ b +:+ c)).
  f_equal. exact IH.
Qed.

Lemma slice_0_m1_slash (s : string) :
  endsWith_slash s = true -> slice_0_m1 s +:+ "/" = s.
Proof.
  induction s as [|x s IH]; [discriminate|].
  destruct s as [|y s'].
  - intros Hx. apply Ascii.eqb_eq in Hx. subst x. reflexivity.
  - intros Hs.
    change (String x (slice_0_m1 (String y s') +:+ "/") = String x (String y s')).
    f_equal. apply IH, Hs.
Qed.

Lemma ensureAuthenticated_valid (w : World) :
  isTokenValid w = (Normal true, w) -> ensureAuthenticated w = (Normal true, w).
Proof. intros Hv. unfold ensureAuthenticated, bind, ret. rewrite Hv. reflexivity. Qed.

Lemma request_first_exchange (endpoint method' : string) (params : option object)
    (body' : value) (w w0 : World) :
  ensureAuthenticated w = (Normal true, w0) ->
  exists out more,
    exchanges (snd (request endpoint method' params body' w)) =
      (exchanges w0 ++
       {| ex_url := request_url (this w0) endpoint params;
          ex_options := request_options (this w0) method' body';
          ex_outcome := out |} :: more)%list.
Proof.
  intros Hens. rewrite (request_run _ _ _ _ _ _ Hens). cbv zeta.
  set (url := request_url (this w0) endpoint params).
  destruct (fetch_cases url (request_options (this w0) method' body') w0)
    as (out & dt & rest & Hf1).
  rewrite Hf1. exists out. destruct out as [|r]; cbn [fetch_result].
  { exists []. reflexivity. }
  destruct (status r =? 401)%Z; [|exists []; reflexivity].
  match type of Hf1 with _ = (_, ?w1) =>
    destruct (clearStoredToken_run w1)
      as (w2 & Hclear & _ & _ & _ & _ & _ & (Hex & _ & _) & _)
  end.
  rewrite Hclear.
  destruct (authenticate VNull VNull w2) as [[a|e] w3] eqn:Hauth;
    destruct (authenticate_exchanges _ _ _ _ _ Hauth) as (_ & _ & _ & Hc).
  - destruct Hc as [[Hc _]|[[auth_out Hax] _]]; [discriminate|].
    destruct (fetch_cases url (request_options (this w3) method' body') w3)
      as (out & dt' & rest' & Hf2).
    rewrite Hf2.
    eexists [_; _].
    destruct out as [|r']; cbn [fetch_result snd exchanges record_exchange];
      rewrite Hax, Hex; cbn [exchanges record_exchange]; rewrite <- !app_assoc;
      reflexivity.
  - cbn [snd]. destruct Hc as [[_ (Hc & _)]|[[auth_out Hax] _]].
    + exists []. rewrite Hc, Hex. reflexivity.
    + eexists [_]. rewrite Hax, Hex. cbn [exchanges record_exchange].
      rewrite <- !app_assoc. reflexivity.
Qed.

Lemma strip_leading_slash_other (s : string) :
  (forall e, s <> "/" +:+ e) -> strip_leading_slash s = s.
Proof.
  intros Hno. destruct s as [|c rest]; [reflexivity|].
  destruct (Ascii.eqb_spec c "/") as [->|Hc].
  { exfalso. apply (Hno rest). reflexivity. }
  destruct c as [[] [] [] [] [] [] [] []]; try reflexivity.
  exfalso. apply Hc. reflexivity.
Qed.

Lemma endsWith_slash_app (b : string) : endsWith_slash (b +:+ "/") = true.
Proof.
  induction b as [|x b IH]; [reflexivity|].
  change (String x b +:+ "/") with (String x (b +:+ "/")).
  cbn [endsWith_slash]. destruct (b +:+ "/") eqn:Hb; [|exact IH].
  destruct b; discriminate Hb.
Qed.

Lemma slice_0_m1_app (b : string) : slice_0_m1 (b +:+ "/") = b.
Proof.
  induction b as [|x b IH]; [reflexivity|].
  change (String x b +:+ "/") with (String x (b +:+ "/")).
  cbn [slice_0_m1]. destruct (b +:+ "/") eqn:Hb.
  - destruct b; discriminate Hb.
  - rewrite IH. reflexivity.
Qed.

Lemma endsWith_slash_other (s : string) :
  (forall b, s <> b +:+ "/") -> endsWith_slash s = false.
Proof.
  intros Hno. destruct (endsWith_slash s) eqn:Hs; [|reflexivity].
  exfalso. apply (Hno (slice_0_m1 s)). symmetry. apply slice_0_m1_slash, Hs.
Qed.

Lemma urlencode_byte_spec (c : ascii) :
  urlencode_byte c =
    if has_char c unreserved_chars then String c ""
    else if Ascii.eqb c " " then "+"
    else "%" +:+ String.substring (N.to_nat (N_of_ascii c / 16)) 1 hex_digits
             +:+ String.substring (N.to_nat (N_of_ascii c mod 16)) 1 hex_digits.
Proof. destruct c as [[] [] [] [] [] [] [] []]; vm_compute; reflexivity. Qed.

(** C7.  With a valid token, the first call of [fetch] that [request]
    makes goes to the base URL, a slash, the endpoint without its one
    leading slash (if it has one), a question mark and the URL-encoded
    parameters, with the given method and the header
    [Authorization: Token <token>].  Every parameter is written once, in
    the order of [Object.entries], as [name=value] joined by [&], each name
    and the text of each value byte by byte: a letter, a digit and [* - . _] as
    it is, a space as [+], any other byte as [%] and two upper-case
    hexadecimal digits.  [getV53aList(1, 10, {})] so fetches
    [api/v53a/?page=1&page_size=10] under the base URL with GET.  The base
    URL is the constructor's argument without its one trailing slash (if it
    has one).  The token and the parameter values are [plain]: they have a
    text, and their numbers are safe integers. *)
Theorem request_url_and_headers (endpoint method' : string) (params : object)
    (body' : value) (w : World) :
  isTokenValid w = (Normal true, w) ->
  plain (token (this w)) = true ->
  (forall k v, In (k, v) params -> plain v = true) ->
  (forall e,
     endpoint = "/" +:+ e \/ (endpoint = e /\ forall e', e <> "/" +:+ e') ->
     exists x more,
       exchanges (snd (request endpoint method' (Some params) body' w)) =
         (exchanges w ++ x :: more)%list /\
       ex_url x = baseUrl (this w) +:+ "/" +:+ e +:+ "?"
                  +:+ URLSearchParams_toString (entries params) /\
       method (ex_options x) = method' /\
       headers (ex_options x) =
         [("Authorization", "Token " +:+ ToString (token (this w)));
          ("Content-Type", "application/json")]) /\
  (Permutation (entries params) params /\
   URLSearchParams_toString [] = "" /\
   (forall k v,
      URLSearchParams_toString [(k, v)] = urlencode k +:+ "=" +:+ urlencode (ToString v)) /\
   (forall p q rest,
      URLSearchParams_toString (p :: q :: rest) =
        URLSearchParams_toString [p] +:+ "&" +:+ URLSearchParams_toString (q :: rest)) /\
   urlencode "" = "" /\
   (forall c s,
      urlencode (String c s) =
        (if has_char c unreserved_chars then String c ""
         else if Ascii.eqb c " " then "+"
         else "%" +:+ String.substring (N.to_nat (N_of_ascii c / 16)) 1 hex_digits
                  +:+ String.substring (N.to_nat (N_of_ascii c mod 16)) 1 hex_digits)
        +:+ urlencode s)) /\
  (exists x more,
     exchanges (snd (getV53aList (VNum 1) (VNum 10) [] w)) =
       (exchanges w ++ x :: more)%list /\
     ex_url x = baseUrl (this w) +:+ "/api/v53a/?page=1&page_size=10" /\
     method (ex_options x) = "GET" /\
     headers (ex_options x) =
       [("Authorization", "Token " +:+ ToString (token (this w)));
        ("Content-Type", "application/json")]) /\
  (forall b u p w0,
     baseUrl (this (snd (constructor (b +:+ "/") u p w0))) = b) /\
  (forall b u p w0,
     (forall b', b <> b' +:+ "/") ->
     baseUrl (this (snd (constructor b u p w0))) = b).
Proof.
  intros Hv _ _. pose proof (ensureAuthenticated_valid w Hv) as Hens.
  split; [|split; [|split; [|split]]].
  - intros e He.
    assert (Hstrip : strip_leading_slash endpoint = e).
    { destruct He as [->|[-> Hno]]; [reflexivity|apply strip_leading_slash_other, Hno]. }
    destruct (request_first_exchange endpoint method' (Some params) body' w w Hens)
      as (out & more & Hex).
    eexists _, more. split; [exact Hex|]. cbn [ex_url ex_options method headers].
    unfold request_url, request_options, request_headers. cbn [method headers].
    rewrite Hstrip, !append_assoc. repeat split.
  - split; [apply entries_perm|].
    split; [reflexivity|]. split; [reflexivity|]. split; [reflexivity|].
    split; [reflexivity|].
    intros c s0. cbn [urlencode]. rewrite urlencode_byte_spec. reflexivity.
  - unfold getV53aList.
    destruct (request_first_exchange "api/v53a/" "GET"
                (Some (spread [("page", default_to (VNum 1) (VNum 1));
                               ("page_size", default_to (VNum 10) (VNum 10))] []))
                VNull w w Hens) as (out & more & Hex).
    eexists _, more. split; [exact Hex|]. cbn [ex_url ex_options method headers].
    unfold request_url, request_options, request_headers. cbn [method headers].
    rewrite !append_assoc. repeat split.
  - intros b u p w0.
    destruct (constructor_run (b +:+ "/") u p w0) as (w' & Hrun & Hbase & _).
    rewrite Hrun. cbn [snd]. rewrite Hbase. unfold kept_baseUrl.
    rewrite endsWith_slash_app. apply slice_0_m1_app.
  - intros b u p w0 Hno.
    destruct (constructor_run b u p w0) as (w' & Hrun & Hbase & _).
    rewrite Hrun. cbn [snd]. rewrite Hbase. unfold kept_baseUrl.
    rewrite (endsWith_slash_other _ Hno). reflexivity.
Qed.


(** *** The expiry that [authenticate] sets *)

(** [new Date(v)] throws only where [v] has no primitive value, so the
    handler that sets the expiry to 24 hours from now runs only there: on
    every other 2xx response the expiry is whatever
    [new Date(data.expires_at)] is, an Invalid Date when the field is
    missing or does not parse.  [_saveToken] then stores the token and
    throws a RangeError on that Invalid Date. *)
Lemma authenticate_sets_expiry (w w' : World) (c : Completion bool) (dt : Z)
    (r : Response) (rest : list (Z * Outcome)) (data tok exp : value) :
  ToBoolean (username (this w)) = true ->
  ToBoolean (password (this w)) = true ->
  network w = (dt, Replied r) :: rest ->
  ok r = true ->
  json r = Some data ->
  get_prop data "token" = Some tok ->
  get_prop data "expires_at" = Some exp ->
  authenticate VNull VNull w = (c, w') ->
  token (this w') = tok /\
  tokenExpiry (this w') = Some (expiry_after exp (clock w + dt)) /\
  match localStorage w with
  | Some s =>
      if ToBoolean tok then
        match expiry_after exp (clock w + dt) with
        | InvalidDate =>
            c = Throw RangeError /\
            localStorage w' = Some (<["api_token" := ToString tok]> s)
        | DateAt t =>
            c = Normal true /\
            localStorage w' =
              Some (<["api_token_expiry" := Date_toISOString t]>
                      (<["api_token" := ToString tok]> s))
        end
      else c = Normal true /\ localStorage w' = Some s
  | None => c = Normal true /\ localStorage w' = None
  end.
Proof.
  destruct w as [[b su sp tk ex0] s clk net ex].
  cbn [this username password network localStorage clock].
  intros Hu Hp -> Hok Hjson Htok Hexp.
  unfold authenticate, _saveToken, fetch, record_exchange, expiry_after.
  change (ToBoolean VNull) with false. run.
  rewrite Hu, Hp. cbn [negb orb]. run. rewrite Hok. run. rewrite Hjson. run.
  rewrite Htok. run. rewrite Hexp. run.
  destruct (stringifiable exp); run; cbn [ToBoolean_date andb getTime number_add Date_of_number].
  - destruct s as [s|]; run; cbn [andb].
    + destruct (ToBoolean tok); run.
      * destruct (Date_of_value exp); run; intros [= <- <-]; repeat split.
      * intros [= <- <-]; repeat split.
    + intros [= <- <-]; repeat split.
  - destruct s as [s|]; run; cbn [andb].
    + destruct (ToBoolean tok); run.
      * destruct (TimeClip (clk + dt + 24 * 60 * 60 * 1000)); run;
          intros [= <- <-]; repeat split.
      * intros [= <- <-]; repeat split.
    + intros [= <- <-]; repeat split.
Qed.



Lemma authenticate_never_defaults (w w' : World) (c : Completion bool) (dt : Z)
    (r : Response) (rest : list (Z * Outcome)) (data tok exp : value) :
  ToBoolean (username (this w)) = true ->
  ToBoolean (password (this w)) = true ->
  network w = (dt, Replied r) :: rest ->
  ok r = true ->
  json r = Some data ->
  get_prop data "token" = Some tok ->
  get_prop data "expires_at" = Some exp ->
  exp = VUndefined \/ (exists s, exp = VStr s /\ Date_parse s = InvalidDate) ->
  authenticate VNull VNull w = (c, w') ->
  tokenExpiry (this w') = Some InvalidDate.
Proof.
  intros Hu Hp Hnet Hok Hjson Htok Hexp Hbad Hrun.
  destruct (authenticate_sets_expiry _ _ _ _ _ _ _ _ _ Hu Hp Hnet Hok Hjson Htok Hexp Hrun)
    as (_ & -> & _).
  unfold expiry_after.
  destruct Hbad as [->|(s & -> & Hs)]; cbn [stringifiable Date_of_value]; congruence.
Qed.

(** ** Further properties of the client *)

(** *** Authentication that fails or brings no token *)

Lemma authenticate_failure_run (w : World) (u p : value) (dt : Z)
    (out : Outcome) (rest : list (Z * Outcome)) :
  ToBoolean (effective u (username (this w))) = true ->
  ToBoolean (effective p (password (this w))) = true ->
  network w = (dt, out) :: rest ->
  match out with
  | NetworkError => True
  | Replied r => ok r = false
  end ->
  exists w',
    authenticate u p w =
      (Throw match out with
             | NetworkError => TypeError "fetch failed"
             | Replied r => AuthenticationFailed (status r) (text r)
             end, w') /\
    token (this w') = token (this w) /\
    tokenExpiry (this w') = tokenExpiry (this w) /\
    localStorage w' = localStorage w /\
    username (this w') = effective u (username (this w)) /\
    password (this w') = effective p (password (this w)) /\
    exchanges w' = (exchanges w ++ [auth_exchange (this w') out])%list /\
    network w' = rest /\
    clock w' = (clock w + dt)%Z.
Proof.
  unfold effective, auth_exchange, AuthenticationFailed.
  destruct w as [[b su sp tk ex0] s clk net ex].
  cbn [this username password network localStorage token tokenExpiry exchanges clock].
  intros Hu Hp -> Hout. unfold authenticate, fetch, record_exchange.
  destruct (ToBoolean u) eqn:Hbu, (ToBoolean p) eqn:Hbp; run;
    rewrite ?Hbu, ?Hbp, ?Hu, ?Hp; cbn [negb orb]; run;
    (destruct out as [|r]; run; [|rewrite Hout; run]);
    eexists; (split; [reflexivity|]); cbn; repeat split.
Qed.

(** X1.  When the credentials are there and the call of [fetch] is
    rejected, or answered with a status outside 200-299, [authenticate]
    throws (a TypeError, or "Authentication failed: status - body") after
    that one call, and the token, the expiry and the store are as before.
    The username and the password given as arguments have replaced the
    stored ones all the same. *)
Theorem authenticate_failure_keeps_token (w : World) (u p : value) (dt : Z)
    (out : Outcome) (rest : list (Z * Outcome)) :
  ToBoolean (effective u (username (this w))) = true ->
  ToBoolean (effective p (password (this w))) = true ->
  network w = (dt, out) :: rest ->
  match out with
  | NetworkError => True
  | Replied r => ok r = false
  end ->
  exists w',
    authenticate u p w =
      (Throw match out with
             | NetworkError => TypeError "fetch failed"
             | Replied r => AuthenticationFailed (status r) (text r)
             end, w') /\
    token (this w') = token (this w) /\
    tokenExpiry (this w') = tokenExpiry (this w) /\
    localStorage w' = localStorage w /\
    username (this w') = effective u (username (this w)) /\
    password (this w') = effective p (password (this w)) /\
    exchanges w' = (exchanges w ++ [auth_exchange (this w') out])%list /\
    network w' = rest /\
    clock w' = (clock w + dt)%Z.
Proof. exact (authenticate_failure_run w u p dt out rest). Qed.

(** X2.  A 2xx response whose [token] is missing, null or empty is taken
    for a success: [authenticate] answers true, writes nothing to the
    store, and leaves a client for which [isTokenValid] is false. *)
Theorem authenticate_accepts_missing_token (w w' : World) (c : Completion bool)
    (dt : Z) (r : Response) (rest : list (Z * Outcome)) (data tok exp : value) :
  ToBoolean (username (this w)) = true ->
  ToBoolean (password (this w)) = true ->
  network w = (dt, Replied r) :: rest ->
  ok r = true ->
  json r = Some data ->
  get_prop data "token" = Some tok ->
  ToBoolean tok = false ->
  get_prop data "expires_at" = Some exp ->
  authenticate VNull VNull w = (c, w') ->
  c = Normal true /\
  token (this w') = tok /\
  localStorage w' = localStorage w /\
  isTokenValid w' = (Normal false, w').
Proof.
  intros Hu Hp Hnet Hok Hjson Htok Hfalsy Hexp Hrun.
  destruct (authenticate_sets_expiry _ _ _ _ _ _ _ _ _ Hu Hp Hnet Hok Hjson Htok Hexp Hrun)
    as (Ht & He & Hsto).
  rewrite (isTokenValid_fresh w' _ _ Ht He), Hfalsy. cbn [andb].
  destruct (localStorage w) as [s|]; rewrite ?Hfalsy in Hsto; destruct Hsto as [-> ->];
    repeat split; assumption.
Qed.

(** *** The token from one client to the next *)



Lemma authenticate_success_frame (w w' : World) (c : Completion bool) (dt : Z)
    (r : Response) (rest : list (Z * Outcome)) (data tok exp : value) :
  ToBoolean (username (this w)) = true ->
  ToBoolean (password (this w)) = true ->
  network w = (dt, Replied r) :: rest ->
  ok r = true ->
  json r = Some data ->
  get_prop data "token" = Some tok ->
  get_prop data "expires_at" = Some exp ->
  authenticate VNull VNull w = (c, w') ->
  baseUrl (this w') = baseUrl (this w) /\
  username (this w') = username (this w) /\
  password (this w') = password (this w) /\
  exchanges w' = (exchanges w ++ [auth_exchange (this w) (Replied r)])%list /\
  network w' = rest /\
  clock w' = (clock w + dt)%Z.
Proof.
  unfold auth_exchange.
  destruct w as [[b su sp tk ex0] s clk net ex].
  cbn [this username password network localStorage baseUrl exchanges clock].
  intros Hu Hp -> Hok Hjson Htok Hexp.
  unfold authenticate, _saveToken, fetch, record_exchange.
  change (ToBoolean VNull) with false. run.
  rewrite Hu, Hp. cbn [negb orb]. run. rewrite Hok. run. rewrite Hjson. run.
  rewrite Htok. run. rewrite Hexp. run.
  destruct (stringifiable exp); run; cbn [ToBoolean_date andb getTime number_add Date_of_number].
  - destruct s as [s|]; run; cbn [andb].
    + destruct (ToBoolean tok); run.
      * destruct (Date_of_value exp); run; intros [= <- <-]; repeat split.
      * intros [= <- <-]; repeat split.
    + intros [= <- <-]; repeat split.
  - destruct s as [s|]; run; cbn [andb].
    + destruct (ToBoolean tok); run.
      * destruct (TimeClip (clk + dt + 24 * 60 * 60 * 1000)); run;
          intros [= <- <-]; repeat split.
      * intros [= <- <-]; repeat split.
    + intros [= <- <-]; repeat split.
Qed.


(** *** How far a call of [request] goes *)

(** X18.  The expiry of 24 hours from now is what [authenticate] sets
    exactly where [new Date(data.expires_at)] throws, which it does on a
    value without a primitive value: an object with an own [toString]
    property, or an array holding one.  There the call returns true, the
    token is valid if it is truthy, and token and expiry are stored.  On
    every other [expires_at] the expiry is the date [new Date] makes of
    it.  The token is [plain]. *)
Theorem authenticate_default_expiry (w w' : World) (c : Completion bool) (dt : Z)
    (r : Response) (rest : list (Z * Outcome)) (data tok exp : value) :
  ToBoolean (username (this w)) = true ->
  ToBoolean (password (this w)) = true ->
  network w = (dt, Replied r) :: rest ->
  ok r = true ->
  json r = Some data ->
  get_prop data "token" = Some tok ->
  plain tok = true ->
  get_prop data "expires_at" = Some exp ->
  authenticate VNull VNull w = (c, w') ->
  let tomorrow := (clock w + dt + 24 * 60 * 60 * 1000)%Z in
  (stringifiable exp = true -> tokenExpiry (this w') = Some (Date_of_value exp)) /\
  (stringifiable exp = false ->
   tokenExpiry (this w') = Some (TimeClip tomorrow) /\
   ((Z.abs tomorrow <=? 8640000000000000)%Z = true ->
    c = Normal true /\
    isTokenValid w' = (Normal (ToBoolean tok), w') /\
    forall s,
      localStorage w = Some s -> ToBoolean tok = true ->
      localStorage w' =
        Some (<["api_token_expiry" := Date_toISOString tomorrow]>
                (<["api_token" := ToString tok]> s)))).
Proof.
  intros Hu Hp Hnet Hok Hjson Htok _ Hexp Hrun tomorrow.
  destruct (authenticate_sets_expiry _ _ _ _ _ _ _ _ _ Hu Hp Hnet Hok Hjson Htok Hexp Hrun)
    as (Ht & He & Hsaved).
  destruct (authenticate_success_frame _ _ _ _ _ _ _ _ _ Hu Hp Hnet Hok Hjson Htok Hexp Hrun)
    as (_ & _ & _ & _ & _ & Hclk).
  unfold expiry_after in He, Hsaved. split.
  - intros Hs. rewrite Hs in He. exact He.
  - intros Hs. rewrite Hs in He, Hsaved. fold tomorrow in He, Hsaved.
    split; [exact He|]. intros Hclip. unfold TimeClip in He, Hsaved.
    rewrite Hclip in He, Hsaved. split; [|split].
    + destruct (localStorage w); [destruct (ToBoolean tok)|]; apply Hsaved.
    + rewrite (isTokenValid_fresh w' _ _ Ht He), Hclk. cbn [fresh_at].
      replace (tomorrow - (clock w + dt))%Z with 86400000%Z by (unfold tomorrow; lia).
      rewrite andb_true_r. reflexivity.
    + intros s Hsto Htruthy. rewrite Hsto, Htruthy in Hsaved. apply Hsaved.
Qed.


Lemma request_trace (endpoint method' : string) (params : option object)
    (body' : value) (w w0 : World) :
  ensureAuthenticated w = (Normal true, w0) ->
  exists more,
    exchanges (snd (request endpoint method' params body' w)) =
      (exchanges w0 ++ more)%list /\
    (1 <= length more <= 3)%nat.
Proof.
  intros Hens. rewrite (request_run _ _ _ _ _ _ Hens). cbv zeta.
  set (url := request_url (this w0) endpoint params).
  destruct (fetch_cases url (request_options (this w0) method' body') w0)
    as (out & dt & rest & Hf1).
  rewrite Hf1. destruct out as [|r]; cbn [fetch_result].
  { eexists [_]. split; [reflexivity|]. cbn. lia. }
  destruct (status r =? 401)%Z; [|eexists [_]; split; [reflexivity|cbn; lia]].
  match type of Hf1 with _ = (_, ?w1) =>
    destruct (clearStoredToken_run w1)
      as (w2 & Hclear & _ & _ & _ & _ & _ & (Hex & _ & _) & _)
  end.
  rewrite Hclear.
  destruct (authenticate VNull VNull w2) as [[a|e] w3] eqn:Hauth;
    destruct (authenticate_exchanges _ _ _ _ _ Hauth) as (_ & _ & _ & Hc).
  - destruct Hc as [[Hc _]|[[auth_out Hax] _]]; [discriminate|].
    destruct (fetch_cases url (request_options (this w3) method' body') w3)
      as (out & dt' & rest' & Hf2).
    rewrite Hf2. eexists [_; _; _].
    destruct out as [|r']; cbn [fetch_result snd exchanges record_exchange];
      rewrite Hax, Hex; cbn [exchanges record_exchange]; rewrite <- !app_assoc;
      (split; [reflexivity|cbn; lia]).
  - cbn [snd]. destruct Hc as [[_ (Hc & _)]|[[auth_out Hax] _]].
    + eexists [_]. rewrite Hc, Hex. split; [reflexivity|cbn; lia].
    + eexists [_; _]. rewrite Hax, Hex. cbn [exchanges record_exchange].
      rewrite <- !app_assoc. split; [reflexivity|cbn; lia].
Qed.

Lemma ensureAuthenticated_trace (w w0 : World) (b : bool) :
  ensureAuthenticated w = (Normal b, w0) ->
  exists more, exchanges w0 = (exchanges w ++ more)%list /\ (length more <= 1)%nat.
Proof.
  unfold ensureAuthenticated, bind, try_catch, ret.
  destruct (isTokenValid_pure w) as [v ->]. destruct v.
  - intros [= <- <-]. exists []. split; [symmetry; apply app_nil_r | cbn; lia].
  - destruct (authenticate VNull VNull w) as [c w'] eqn:Hauth.
    destruct (authenticate_exchanges _ _ _ _ _ Hauth) as (_ & _ & _ & Hc).
    assert (Hw : w' = w0 -> exists more,
               exchanges w0 = (exchanges w ++ more)%list /\ (length more <= 1)%nat).
    { intros <-. destruct Hc as [[_ (Hc & _)]|[[out Hax] _]].
      - exists []. rewrite Hc. split; [symmetry; apply app_nil_r | cbn; lia].
      - eexists [_]. split; [exact Hax | cbn; lia]. }
    destruct c; intros [= _ Hw0]; apply Hw; congruence.
Qed.


(** X6.  A call of [request] makes at most four calls of [fetch]: one
    authentication by [ensureAuthenticated], the request, one
    authentication after a 401 and one retry.  Nothing loops, whatever the
    server answers. *)
Theorem request_at_most_four_fetches (endpoint method' : string)
    (params : option object) (body' : value) (w : World) :
  exists more,
    exchanges (snd (request endpoint method' params body' w)) =
      (exchanges w ++ more)%list /\
    (length more <= 4)%nat.
Proof.
  destruct (ensureAuthenticated_returns w) as (b & w0 & Hens).
  destruct (ensureAuthenticated_trace _ _ _ Hens) as (m0 & Hm0 & Hl0).
  destruct b.
  - destruct (request_trace endpoint method' params body' w w0 Hens) as (m1 & Hm1 & Hl1).
    exists (m0 ++ m1)%list. rewrite Hm1, Hm0, <- app_assoc. split; [reflexivity|].
    rewrite length_app. lia.
  - exists m0. split; [|lia].
    unfold request, bind at 1. rewrite Hens. cbn [negb]. exact Hm0.
Qed.

(** *** The other read operations *)

(** X7.  With a valid token, [getV53aDetail(id)] fetches
    [api/v53a/<id>/] and [getLastElements(did)] fetches
    [api/v53a/<did>/last-elements/] under the base URL, with GET, the
    header [Authorization: Token <token>], and without query string or
    body.  The identifier is put in as [String(id)] makes it, without any
    escaping.  The token and the identifier are [plain]: they have a text
    (on an object with an own [toString] property the template throws
    before any call of [fetch]), and their numbers are safe integers, which
    are written as decimal numerals. *)
Theorem detail_and_last_elements_urls (id : value) (w : World) :
  isTokenValid w = (Normal true, w) ->
  plain (token (this w)) = true ->
  plain id = true ->
  (exists out more,
     exchanges (snd (getV53aDetail id w)) =
       (exchanges w ++
        {| ex_url := baseUrl (this w) +:+ "/api/v53a/" +:+ ToString id +:+ "/";
           ex_options := {| method := "GET";
                            headers :=
                              [("Authorization", "Token " +:+ ToString (token (this w)));
                               ("Content-Type", "application/json")];
                            body := None |};
           ex_outcome := out |} :: more)%list) /\
  (exists out more,
     exchanges (snd (getLastElements id w)) =
       (exchanges w ++
        {| ex_url := baseUrl (this w) +:+ "/api/v53a/" +:+ ToString id
                     +:+ "/last-elements/";
           ex_options := {| method := "GET";
                            headers :=
                              [("Authorization", "Token " +:+ ToString (token (this w)));
                               ("Content-Type", "application/json")];
                            body := None |};
           ex_outcome := out |} :: more)%list).
Proof.
  intros Hv _ _. pose proof (ensureAuthenticated_valid w Hv) as Hens.
  split.
  - unfold getV53aDetail.
    destruct (request_first_exchange ("api/v53a/" +:+ ToString id +:+ "/") "GET" None VNull
                w w Hens) as (out & more & Hex).
    exists out, more. rewrite Hex. reflexivity.
  - unfold getLastElements.
    destruct (request_first_exchange ("api/v53a/" +:+ ToString id +:+ "/last-elements/")
                "GET" None VNull w w Hens) as (out & more & Hex).
    exists out, more. rewrite Hex. reflexivity.
Qed.

(** *** Construction, again and after a logout *)

Lemma World_eq (w w' : World) :
  this w = this w' -> localStorage w = localStorage w' -> clock w = clock w' ->
  network w = network w' -> exchanges w = exchanges w' -> w = w'.
Proof. destruct w, w'. cbn. intros -> -> -> -> ->. reflexivity. Qed.

Lemma ApiClient_eq (c c' : ApiClient) :
  baseUrl c = baseUrl c' -> username c = username c' -> password c = password c' ->
  token c = token c' -> tokenExpiry c = tokenExpiry c' -> c = c'.
Proof. destruct c, c'. cbn. intros -> -> -> -> ->. reflexivity. Qed.

Lemma stored_pair_ext (w w' : World) :
  localStorage w' = localStorage w -> stored_pair w' = stored_pair w.
Proof. unfold stored_pair. intros ->. reflexivity. Qed.

Lemma stored_pair_without (w w' : World) :
  localStorage w' = without_token_entries (localStorage w) -> stored_pair w' = None.
Proof.
  intros Hs. destruct (without_token_entries_lacks _ _ Hs) as [Hl _].
  unfold stored_pair, store_lacks in *. destruct (localStorage w') as [s|]; [|reflexivity].
  rewrite Hl. reflexivity.
Qed.

(** X8.  Constructing a client makes no call of [fetch], and constructing
    it once more in the world it left changes nothing: a stored token that
    was loaded is loaded again, one that was dropped stays dropped. *)
Theorem constructor_idempotent (baseUrl' : string) (u p : value) (w : World) :
  exists w1,
    constructor baseUrl' u p w = (Normal tt, w1) /\
    no_network w w1 /\
    constructor baseUrl' u p w1 = (Normal tt, w1).
Proof.
  destruct (constructor_run baseUrl' u p w)
    as (w1 & Hrun & Hb & Hu & Hp & Hnet & Hload).
  exists w1. split; [exact Hrun|]. split; [exact Hnet|].
  destruct (constructor_run baseUrl' u p w1)
    as (w2 & Hrun2 & Hb2 & Hu2 & Hp2 & (Hex2 & Hnw2 & Hclk2) & Hload2).
  rewrite Hrun2. f_equal. destruct Hnet as (_ & _ & Hclk).
  assert (Hsame : token (this w2) = token (this w1) /\
                  tokenExpiry (this w2) = tokenExpiry (this w1) /\
                  localStorage w2 = localStorage w1).
  { destruct (stored_pair w) as [[t e]|] eqn:Hpair.
    - destruct (fresh_at (Date_parse e) (clock w)) eqn:Hfresh.
      + destruct Hload as (Ht & He & Hs).
        rewrite (stored_pair_ext _ _ Hs), Hpair, Hclk, Hfresh in Hload2.
        destruct Hload2 as (Ht2 & He2 & Hs2). repeat split; congruence.
      + destruct Hload as (Ht & He & Hs).
        rewrite (stored_pair_without _ _ Hs) in Hload2.
        destruct Hload2 as (Ht2 & He2 & Hs2). repeat split; congruence.
    - destruct Hload as (Ht & He & Hs).
      rewrite (stored_pair_ext _ _ Hs), Hpair in Hload2.
      destruct Hload2 as (Ht2 & He2 & Hs2). repeat split; congruence. }
  destruct Hsame as (Ht & He & Hs).
  apply World_eq; try assumption. apply ApiClient_eq; congruence.
Qed.

(** X9.  After [logout] the token is gone for good: a second [logout]
    changes nothing, and a client constructed afterwards over the same
    store loads no token and leaves the store as it is. *)
Theorem logout_is_final (w : World) (baseUrl' : string) (u p : value) :
  exists w1,
    logout w = (Normal tt, w1) /\
    logout w1 = (Normal tt, w1) /\
    exists w2,
      constructor baseUrl' u p w1 = (Normal tt, w2) /\
      token (this w2) = VNull /\
      tokenExpiry (this w2) = None /\
      localStorage w2 = localStorage w1 /\
      no_network w1 w2.
Proof.
  unfold logout.
  destruct (clearStoredToken_run w)
    as (w1 & Hrun & Ht & He & Hs & _).
  exists w1. split; [exact Hrun|]. split.
  - destruct (clearStoredToken_run w1)
      as (w1' & Hrun' & Ht' & He' & Hs' & _ & _ & (Hex & Hnw & Hclk) & Hb & Hu & Hp).
    rewrite Hrun'. f_equal. apply World_eq; try assumption.
    + apply ApiClient_eq; congruence.
    + rewrite Hs', Hs. unfold without_token_entries.
      destruct (localStorage w) as [s|]; cbn; [|reflexivity]. f_equal.
      apply map_eq. intros k. rewrite !lookup_delete. repeat case_decide; reflexivity.
  - destruct (constructor_run baseUrl' u p w1)
      as (w2 & Hrun2 & _ & _ & _ & Hnet2 & Hload2).
    rewrite (stored_pair_without _ _ Hs) in Hload2.
    exists w2. split; [exact Hrun2|]. destruct Hload2 as (Ht2 & He2 & Hs2).
    repeat split; try assumption; apply Hnet2.
Qed.

(** *** The query of a listing *)

Lemma index_props_named (o : object) :
  (forall k x, In (k, x) o -> array_index k = None) -> index_props o = [].
Proof.
  induction o as [|[k x] o IH]; intros Hnamed; [reflexivity|].
  cbn [index_props]. rewrite (Hnamed k x) by (left; reflexivity).
  apply IH. intros k' x' Hin. apply (Hnamed k' x'). right. exact Hin.
Qed.

Lemma entries_named (o : object) :
  (forall k x, In (k, x) o -> array_index k = None) -> entries o = o.
Proof.
  intros Hnamed. unfold entries. rewrite (index_props_named o Hnamed). cbn [map app].
  unfold named_props. induction o as [|[k x] o IH]; [reflexivity|].
  cbn [List.filter fst]. rewrite (Hnamed k x) by (left; reflexivity).
  f_equal. apply IH. intros k' x' Hin. apply (Hnamed k' x'). right. exact Hin.
Qed.

Lemma obj_set_fresh (o : object) (k : string) (v : value) :
  ~ In k (map fst o) -> obj_set o k v = (o ++ [(k, v)])%list.
Proof.
  induction o as [|[k0 v0] o IH]; intros Hnin; [reflexivity|].
  cbn [obj_set map fst] in *. destruct (String.eqb k0 k) eqn:Hk.
  - apply String.eqb_eq in Hk. exfalso. apply Hnin. left. exact Hk.
  - cbn [app]. f_equal. apply IH. intros Hin. apply Hnin. right. exact Hin.
Qed.

Lemma fold_obj_set_fresh (l : list (string * value)) (base : object) :
  List.NoDup (map fst l) ->
  (forall k, In k (map fst l) -> ~ In k (map fst base)) ->
  fold_left (fun acc p => obj_set acc (fst p) (snd p)) l base = (base ++ l)%list.
Proof.
  revert base. induction l as [|[k v] l IH]; intros base Hnd Hfresh.
  - symmetry. apply app_nil_r.
  - cbn [fold_left fst snd map] in *. apply List.NoDup_cons_iff in Hnd as [Hnin Hnd].
    rewrite obj_set_fresh by (apply Hfresh; left; reflexivity).
    rewrite IH; [rewrite <- app_assoc; reflexivity | exact Hnd |].
    intros k' Hin. rewrite map_app, in_app_iff. cbn [map fst In].
    intros [Hb|[Hk|[]]].
    + apply (Hfresh k'); [right; exact Hin | exact Hb].
    + subst k'. contradiction.
Qed.

(** X10.  The query of [getV53aList] has one entry for each name: every
    property of [filters] with its value, and [page] and [page_size] with
    the arguments (or 1 and 10) when [filters] has none of that name;
    nothing else.  When no filter is named [page], [page_size] or by an
    array index, the entries are [page], [page_size] and then the filters
    in the order they were given. *)
Theorem getV53aList_query_entries (page pageSize : value) (filters : object) :
  wf_object filters ->
  let params := list_params page pageSize filters in
  wf_object (entries params) /\
  (forall k x,
     In (k, x) (entries params) <->
     obj_get filters k = Some x \/
     (obj_get filters k = None /\
      ((k = "page" /\ x = default_to (VNum 1) page) \/
       (k = "page_size" /\ x = default_to (VNum 10) pageSize)))) /\
  (obj_get filters "page" = None ->
   obj_get filters "page_size" = None ->
   (forall k x, In (k, x) filters -> array_index k = None) ->
   entries params =
     (("page", default_to (VNum 1) page)
      :: ("page_size", default_to (VNum 10) pageSize) :: filters)%list).
Proof.
  intros Hwf params.
  assert (Hbase : wf_object [("page", default_to (VNum 1) page);
                             ("page_size", default_to (VNum 10) pageSize)]).
  { unfold wf_object. cbn [map fst]. repeat constructor; cbn; intuition discriminate. }
  assert (Hwfp : wf_object params) by (apply spread_wf, Hbase).
  split; [apply entries_wf, Hwfp|]. split.
  - intros k x. rewrite (entries_get _ _ _ Hwfp). unfold params, list_params.
    rewrite (spread_get _ _ _ Hwf). destruct (obj_get filters k) as [v|] eqn:Hk.
    + split; [intros [= ->]; left; reflexivity|].
      intros [[= ->]|[Hn _]]; [reflexivity | discriminate].
    + cbn [obj_get]. split.
      * intros Hget. right. split; [reflexivity|].
        destruct (String.eqb "page" k) eqn:Hp.
        { apply String.eqb_eq in Hp. left. split; congruence. }
        destruct (String.eqb "page_size" k) eqn:Hps; [|discriminate].
        apply String.eqb_eq in Hps. right. split; congruence.
      * intros [Hs|[_ [[-> ->]|[-> ->]]]]; [discriminate | reflexivity | reflexivity].
  - intros Hnp Hnps Hnamed.
    assert (Hkeys : forall k, In k (map fst filters) -> k <> "page" /\ k <> "page_size").
    { intros k Hin. apply in_map_iff in Hin as [[k' x] [Hk Hin]]. cbn in Hk. subst k'.
      pose proof (In_obj_get _ _ _ Hwf Hin) as Hget. split; intros ->; congruence. }
    unfold params, list_params, spread. rewrite (entries_named filters Hnamed).
    rewrite fold_obj_set_fresh; [| exact Hwf |].
    + apply entries_named. intros k x [[= <- <-]|[[= <- <-]|Hin]];
        [reflexivity | reflexivity | apply (Hnamed k x Hin)].
    + intros k Hin. destruct (Hkeys k Hin) as [H1 H2]. cbn [map fst In]. intuition.
Qed.

(** *** The text of a query *)

Lemma has_char_app (c : ascii) (a b : string) :
  has_char c (a +:+ b) = has_char c a || has_char c b.
Proof.
  induction a as [|x a IH]; [reflexivity|].
  change (String x a +:+ b) with (String x (a +:+ b)). cbn [has_char].
  rewrite IH, orb_assoc. reflexivity.
Qed.

Lemma chars_in_app (allowed a b : string) :
  chars_in allowed (a +:+ b) = chars_in allowed a && chars_in allowed b.
Proof.
  induction a as [|x a IH]; [reflexivity|].
  change (String x a +:+ b) with (String x (a +:+ b)). cbn [chars_in].
  rewrite IH, andb_assoc. reflexivity.
Qed.

Lemma count_char_app (c : ascii) (a b : string) :
  count_char c (a +:+ b) = (count_char c a + count_char c b)%nat.
Proof.
  induction a as [|x a IH]; [reflexivity|].
  change (String x a +:+ b) with (String x (a +:+ b)). cbn [count_char].
  rewrite IH. lia.
Qed.

Lemma chars_in_has_char (allowed s : string) (c : ascii) :
  chars_in allowed s = true -> has_char c allowed = false -> has_char c s = false.
Proof.
  induction s as [|x s IH]; [reflexivity|]. cbn [chars_in has_char].
  intros Hin Hc. apply andb_true_iff in Hin as [Hx Hs]. rewrite (IH Hs Hc), orb_false_r.
  destruct (Ascii.eqb x c) eqn:Hxc; [|reflexivity].
  apply Ascii.eqb_eq in Hxc. subst x. congruence.
Qed.

Lemma has_char_count (c : ascii) (s : string) :
  has_char c s = false -> count_char c s = 0%nat.
Proof.
  induction s as [|x s IH]; [reflexivity|]. cbn [has_char count_char].
  intros Hc. apply orb_false_iff in Hc as [-> Hs]. rewrite (IH Hs). reflexivity.
Qed.

Lemma urlencode_byte_chars (c : ascii) :
  chars_in urlencoded_chars (urlencode_byte c) = true.
Proof. destruct c as [[] [] [] [] [] [] [] []]; vm_compute; reflexivity. Qed.

Lemma urlencode_chars (s : string) : chars_in urlencoded_chars (urlencode s) = true.
Proof.
  induction s as [|c s IH]; [reflexivity|]. cbn [urlencode].
  rewrite chars_in_app, urlencode_byte_chars, IH. reflexivity.
Qed.

Lemma urldecode_byte (c : ascii) (rest : string) :
  urldecode (urlencode_byte c +:+ rest) = String c (urldecode rest).
Proof.
  destruct c as [[] [] [] [] [] [] [] []];
    match goal with
    | |- urldecode (urlencode_byte ?c +:+ _) = _ =>
        let e := eval vm_compute in (urlencode_byte c) in
        change (urlencode_byte c) with e
    end; reflexivity.
Qed.

Lemma urldecode_urlencode (s : string) : urldecode (urlencode s) = s.
Proof.
  induction s as [|c s IH]; [reflexivity|]. cbn [urlencode].
  rewrite urldecode_byte, IH. reflexivity.
Qed.

Lemma urlencode_inj (s s' : string) : urlencode s = urlencode s' -> s = s'.
Proof.
  intros Heq. rewrite <- (urldecode_urlencode s), <- (urldecode_urlencode s'), Heq.
  reflexivity.
Qed.

Lemma urlencode_lacks (c : ascii) (s : string) :
  has_char c urlencoded_chars = false -> has_char c (urlencode s) = false.
Proof. apply chars_in_has_char, urlencode_chars. Qed.

(** Text cut at the first occurrence of a character is cut in one way. *)
Lemma append_split (c : ascii) (a a' r r' : string) :
  has_char c a = false -> has_char c a' = false ->
  a +:+ String c r = a' +:+ String c r' -> a = a' /\ r = r'.
Proof.
  revert a'. induction a as [|x a IH]; intros [|y a'] Ha Ha' Heq.
  - change (String c r = String c r') in Heq. injection Heq as ->. split; reflexivity.
  - change (String c r = String y (a' +:+ String c r')) in Heq. injection Heq as Hc _.
    subst y. cbn [has_char] in Ha'. rewrite Ascii.eqb_refl in Ha'. discriminate Ha'.
  - change (String x (a +:+ String c r) = String c r') in Heq. injection Heq as Hc _.
    subst x. cbn [has_char] in Ha. rewrite Ascii.eqb_refl in Ha. discriminate Ha.
  - change (String x (a +:+ String c r) = String y (a' +:+ String c r')) in Heq.
    injection Heq as -> Heq. cbn [has_char] in Ha, Ha'.
    apply orb_false_iff in Ha as [_ Ha], Ha' as [_ Ha'].
    destruct (IH a' Ha Ha' Heq) as [-> ->]. split; reflexivity.
Qed.

Lemma join_inj (c : ascii) (l l' : list string) :
  (forall x, In x l \/ In x l' -> has_char c x = false /\ x <> "") ->
  join (String c "") l = join (String c "") l' -> l = l'.
Proof.
  revert l'. induction l as [|x l IH]; intros [|y l'] Hparts Heq.
  - reflexivity.
  - exfalso. destruct (Hparts y (or_intror (or_introl eq_refl))) as [_ Hy].
    destruct l' as [|y' l'']; cbn [join] in Heq; destruct y; try discriminate Heq.
    apply Hy. reflexivity.
  - exfalso. destruct (Hparts x (or_introl (or_introl eq_refl))) as [_ Hx].
    destruct l as [|x' l'']; cbn [join] in Heq; destruct x; try discriminate Heq.
    apply Hx. reflexivity.
  - destruct (Hparts x (or_introl (or_introl eq_refl))) as [Hx _].
    destruct (Hparts y (or_intror (or_introl eq_refl))) as [Hy _].
    destruct l as [|x' l0], l' as [|y' l0'].
    + cbn [join] in Heq. subst y. reflexivity.
    + exfalso. change (x = y +:+ String c (join (String c "") (y' :: l0'))) in Heq.
      rewrite Heq, has_char_app in Hx. cbn [has_char] in Hx.
      rewrite Ascii.eqb_refl in Hx. rewrite orb_true_r in Hx. discriminate Hx.
    + exfalso. change (x +:+ String c (join (String c "") (x' :: l0)) = y) in Heq.
      rewrite <- Heq, has_char_app in Hy. cbn [has_char] in Hy.
      rewrite Ascii.eqb_refl in Hy. rewrite orb_true_r in Hy. discriminate Hy.
    + change (x +:+ String c (join (String c "") (x' :: l0)) =
              y +:+ String c (join (String c "") (y' :: l0'))) in Heq.
      destruct (append_split c _ _ _ _ Hx Hy Heq) as [-> Hrest].
      f_equal. apply IH; [|exact Hrest].
      intros z [Hz|Hz]; apply Hparts; [left|right]; right; exact Hz.
Qed.

Lemma query_inj (texts texts' : list (string * string)) :
  join "&" (map (fun p => urlencode (fst p) +:+ "=" +:+ urlencode (snd p)) texts) =
  join "&" (map (fun p => urlencode (fst p) +:+ "=" +:+ urlencode (snd p)) texts') ->
  texts = texts'.
Proof.
  intros Heq. apply join_inj in Heq.
  - revert texts' Heq. induction texts as [|[k t] l IH]; intros [|[k' t'] l'] Heq;
      try discriminate Heq; [reflexivity|].
    cbn [map fst snd] in Heq. injection Heq as Hpart Hrest.
    change (urlencode k +:+ String "=" (urlencode t) =
            urlencode k' +:+ String "=" (urlencode t')) in Hpart.
    apply append_split in Hpart; try (apply urlencode_lacks; reflexivity).
    destruct Hpart as [Hk Ht]. apply urlencode_inj in Hk, Ht. subst k' t'.
    f_equal. apply IH, Hrest.
  - assert (Hpart : forall k t,
              has_char "&" (urlencode k +:+ "=" +:+ urlencode t) = false /\
              urlencode k +:+ "=" +:+ urlencode t <> "").
    { intros k t. split.
      - rewrite !has_char_app, !urlencode_lacks by reflexivity. reflexivity.
      - intros Hempty. apply (f_equal (has_char "=")) in Hempty.
        rewrite !has_char_app in Hempty. cbn [has_char] in Hempty.
        rewrite Ascii.eqb_refl in Hempty. cbn [orb] in Hempty.
        rewrite orb_true_r in Hempty. discriminate Hempty. }
    intros x [Hin|Hin]; apply in_map_iff in Hin as [[k t] [<- _]]; apply Hpart.
Qed.

(** X11.  The query tells the names and the texts of the values, and
    nothing more of the values.  A name, and the text [String(value)] of a
    value, is written with letters, digits and [* - . _ + %] only and can
    be read back: [urldecode] undoes [urlencode].  So two lists of
    parameters give the same query exactly when they have the same names
    with the same texts in the same order; values with the same text, like
    the number 1 and the string 1, are sent alike.  The values are
    [plain]. *)
Theorem urlencode_round_trip :
  (forall s,
     chars_in urlencoded_chars (urlencode s) = true /\ urldecode (urlencode s) = s) /\
  (forall s s', urlencode s = urlencode s' -> s = s') /\
  (forall pairs pairs' : list (string * value),
     (forall p, In p pairs \/ In p pairs' -> plain (snd p) = true) ->
     URLSearchParams_toString pairs = URLSearchParams_toString pairs' <->
     map (fun p => (fst p, ToString (snd p))) pairs =
     map (fun p => (fst p, ToString (snd p))) pairs').
Proof.
  split; [|split].
  - intros s. split; [apply urlencode_chars | apply urldecode_urlencode].
  - apply urlencode_inj.
  - intros pairs pairs' _.
    assert (Hq : forall l,
              URLSearchParams_toString l =
                join "&" (map (fun p => urlencode (fst p) +:+ "=" +:+ urlencode (snd p))
                            (map (fun p => (fst p, ToString (snd p))) l))).
    { intros l. unfold URLSearchParams_toString. rewrite map_map. reflexivity. }
    rewrite !Hq. split; [apply query_inj | intros ->; reflexivity].
Qed.

Lemma part_count (c : ascii) (p : string * value) :
  has_char c urlencoded_chars = false ->
  count_char c (urlencode (fst p) +:+ "=" +:+ urlencode (ToString (snd p))) =
    count_char c "=".
Proof.
  intros Hc. rewrite !count_char_app.
  rewrite !(has_char_count c (urlencode _))
    by (apply (chars_in_has_char urlencoded_chars); [apply urlencode_chars | exact Hc]).
  lia.
Qed.

Lemma query_count (c : ascii) (pairs : list (string * value)) :
  has_char c urlencoded_chars = false ->
  count_char c (URLSearchParams_toString pairs) =
    (count_char c "&" * pred (length pairs) + count_char c "=" * length pairs)%nat.
Proof.
  intros Hc. unfold URLSearchParams_toString.
  induction pairs as [|p pairs IH].
  { change (join "&" (map _ [])) with "". cbn [count_char length pred]. lia. }
  destruct pairs as [|q pairs].
  - cbn [map].
    match goal with |- count_char c (join "&" [?x]) = _ => change (join "&" [x]) with x end.
    rewrite part_count by exact Hc. cbn [length pred]. lia.
  - cbn [map] in *.
    match goal with |- count_char c (join "&" (?x :: ?y :: ?l)) = _ =>
      change (join "&" (x :: y :: l)) with (x +:+ "&" +:+ join "&" (y :: l)) end.
    rewrite count_char_app, part_count by exact Hc.
    rewrite count_char_app, IH. cbn [length pred]. lia.
Qed.

(** X12.  In the query that [request] appends, [&] and [=] occur only as
    separators: for n parameters there are n - 1 [&] and n [=], whatever
    characters the names and values hold; [#], [?] and the space do not
    occur.  No parameter can pass for two, and none can cut the query
    short. *)
Theorem query_separators (pairs : list (string * value)) :
  count_char "&" (URLSearchParams_toString pairs) = pred (length pairs) /\
  count_char "=" (URLSearchParams_toString pairs) = length pairs /\
  count_char "#" (URLSearchParams_toString pairs) = 0%nat /\
  count_char "?" (URLSearchParams_toString pairs) = 0%nat /\
  count_char " " (URLSearchParams_toString pairs) = 0%nat.
Proof.
  repeat split; rewrite query_count by reflexivity.
  all: match goal with |- (count_char ?c "&" * _ + count_char ?c "=" * _)%nat = _ =>
         let a := eval vm_compute in (count_char c "&") in
         let b := eval vm_compute in (count_char c "=") in
         change (count_char c "&") with a; change (count_char c "=") with b end; lia.
Qed.

(** *** File names *)











(** *** The structure of a record *)

Lemma obj_get_assign (o : object) (k0 k : string) (v : value) :
  obj_get (obj_assign o k0 v) k =
    if String.eqb k0 "__proto__" then obj_get o k
    else if String.eqb k0 k then Some v else obj_get o k.
Proof.
  unfold obj_assign. destruct (String.eqb k0 "__proto__"); [reflexivity|].
  apply obj_get_set.
Qed.

Lemma obj_get_entries (o : object) (k : string) :
  wf_object o -> obj_get (entries o) k = obj_get o k.
Proof.
  intros Hwf. destruct (obj_get o k) as [v|] eqn:Hget.
  - apply In_obj_get; [apply entries_wf, Hwf|]. apply entries_In, obj_get_In, Hget.
  - destruct (obj_get (entries o) k) as [v|] eqn:Hget'; [|reflexivity].
    apply obj_get_In, (proj1 (entries_In _ _)) in Hget'.
    rewrite (In_obj_get _ _ _ Hwf Hget') in Hget. discriminate.
Qed.

Lemma obj_get_absent (l : object) (k : string) :
  ~ In k (map fst l) -> obj_get l k = None.
Proof.
  intros Hnin. destruct (obj_get l k) as [v|] eqn:Hget; [|reflexivity].
  exfalso. apply Hnin. apply obj_get_In in Hget. apply (in_map fst) in Hget. exact Hget.
Qed.

(** What the first loop has noted when it is through the entries [l]. *)
Lemma debug_entries_notes (l : list (string * value)) (d0 d : DebugInfo) :
  wf_object l ->
  debug_entries d0 l = Normal d ->
  arrayFields d = arrayFields d0 /\
  (forall k,
     obj_get (listFields d) k =
       if String.eqb k "__proto__" then obj_get (listFields d0) k
       else match obj_get l k with
            | Some (VArr elems) => Some (array_summary elems)
            | _ => obj_get (listFields d0) k
            end) /\
  (forall k,
     obj_get (fields d) k =
       if String.eqb k "__proto__" then obj_get (fields d0) k
       else match obj_get l k with
            | Some v =>
                match JSON_stringify v with
                | Some text =>
                    Some (VObj [("type", VStr (if isArray v then "array" else typeof v));
                                ("preview", VStr (preview_of text))])
                | None => obj_get (fields d0) k
                end
            | None => obj_get (fields d0) k
            end).
Proof.
  unfold wf_object. revert d0. induction l as [|[k0 v0] l IH]; intros d0 Hwf Hrun.
  - injection Hrun as <-. repeat split; intros k; destruct (String.eqb k "__proto__");
      reflexivity.
  - cbn [map fst] in Hwf. apply List.NoDup_cons_iff in Hwf as [Hnin Hwf].
    cbn [debug_entries] in Hrun. unfold debug_entry in Hrun.
    destruct (JSON_stringify v0) as [text|] eqn:Htext; [|discriminate].
    destruct (IH _ Hwf Hrun) as (Harr & Hlist & Hfields). cbn [arrayFields listFields fields] in *.
    split; [exact Harr|]. split; intros k.
    + rewrite Hlist. destruct (String.eqb k "__proto__") eqn:Hproto.
      * apply String.eqb_eq in Hproto. subst k.
        destruct v0; try reflexivity. rewrite obj_get_assign.
        destruct (String.eqb k0 "__proto__") eqn:Hk0; reflexivity.
      * cbn [obj_get]. destruct (String.eqb k0 k) eqn:Hk.
        -- apply String.eqb_eq in Hk. subst k0. rewrite (obj_get_absent l k Hnin).
           destruct v0; try reflexivity. rewrite obj_get_assign, Hproto, String.eqb_refl.
           reflexivity.
        -- destruct (obj_get l k) as [[]|]; try reflexivity;
             destruct v0; try reflexivity; rewrite obj_get_assign, Hk;
             destruct (String.eqb k0 "__proto__"); reflexivity.
    + rewrite Hfields. destruct (String.eqb k "__proto__") eqn:Hproto.
      * apply String.eqb_eq in Hproto. subst k. rewrite obj_get_assign.
        destruct (String.eqb k0 "__proto__") eqn:Hk0; reflexivity.
      * cbn [obj_get]. destruct (String.eqb k0 k) eqn:Hk.
        -- apply String.eqb_eq in Hk. subst k0. rewrite (obj_get_absent l k Hnin).
           rewrite Htext, obj_get_assign, Hproto, String.eqb_refl. reflexivity.
        -- assert (Hold : obj_get
                      (obj_assign (fields d0) k0
                         (VObj [("type", VStr (if isArray v0 then "array" else typeof v0));
                                ("preview", VStr (preview_of text))])) k =
                    obj_get (fields d0) k).
           { rewrite obj_get_assign, Hk. destruct (String.eqb k0 "__proto__"); reflexivity. }
           rewrite Hold. reflexivity.
Qed.

Lemma debug_entries_returns (l : list (string * value)) (d0 : DebugInfo) :
  (forall k v, In (k, v) l -> v <> VUndefined) ->
  exists d, debug_entries d0 l = Normal d.
Proof.
  revert d0. induction l as [|[k0 v0] l IH]; intros d0 Hdef; [eexists; reflexivity|].
  cbn [debug_entries]. unfold debug_entry.
  destruct v0; try (apply IH; intros k v Hin; apply (Hdef k v); right; exact Hin).
  exfalso. apply (Hdef k0 VUndefined); [left|]; reflexivity.
Qed.

Lemma debug_entries_throws (l : list (string * value)) (d0 : DebugInfo) (k : string) :
  In (k, VUndefined) l ->
  debug_entries d0 l = Throw (TypeError "Cannot read properties of undefined").
Proof.
  revert d0. induction l as [|[k0 v0] l IH]; intros d0 Hin; [destruct Hin|].
  cbn [debug_entries]. unfold debug_entry. destruct Hin as [[= -> ->]|Hin]; [reflexivity|].
  destruct (JSON_stringify v0); [apply IH, Hin | reflexivity].
Qed.

Lemma debug_expected_fold (record : object) (l : list string) (d0 : DebugInfo) :
  let d := fold_left (debug_expected record) l d0 in
  fields d = fields d0 /\
  listFields d = listFields d0 /\
  arrayFields d =
    fold_left (fun acc field => obj_assign acc field (expected_note record field)) l
      (arrayFields d0).
Proof.
  cbv zeta. revert d0. induction l as [|f l IH]; intros d0; [repeat split|].
  cbn [fold_left]. destruct (IH (debug_expected record d0 f)) as (Hf & Hl & Ha).
  rewrite Hf, Hl, Ha. repeat split.
Qed.

Lemma debug_expected_run (record : object) (d0 : DebugInfo) :
  arrayFields d0 = [] ->
  let d := fold_left (debug_expected record) expectedFields d0 in
  fields d = fields d0 /\
  listFields d = listFields d0 /\
  arrayFields d = map (fun field => (field, expected_note record field)) expectedFields.
Proof.
  intros Hempty. cbv zeta.
  destruct (debug_expected_fold record expectedFields d0) as (Hf & Hl & Ha).
  rewrite Hf, Hl, Ha, Hempty. repeat split.
Qed.

Lemma obj_get_map_key (g : string -> value) (l : list string) (k : string) :
  In k l -> obj_get (map (fun field => (field, g field)) l) k = Some (g k).
Proof.
  induction l as [|f l IH]; intros Hin; [destruct Hin|]. cbn [map obj_get].
  destruct (String.eqb f k) eqn:Hf.
  - apply String.eqb_eq in Hf. subst f. reflexivity.
  - destruct Hin as [->|Hin]; [rewrite String.eqb_refl in Hf; discriminate|].
    apply IH, Hin.
Qed.

Lemma debug_entries_arrayFields (l : list (string * value)) (d0 d : DebugInfo) :
  debug_entries d0 l = Normal d -> arrayFields d = arrayFields d0.
Proof.
  revert d0. induction l as [|[k0 v0] l IH]; intros d0 Hrun.
  - injection Hrun as <-. reflexivity.
  - cbn [debug_entries] in Hrun. unfold debug_entry in Hrun.
    destruct (JSON_stringify v0); [|discriminate].
    rewrite (IH _ Hrun). reflexivity.
Qed.

(** X14.  For a record none of whose properties is [undefined], as every
    record read from JSON is, [debugRecordStructure] returns, and
    [arrayFields] has one entry for each of the sixteen expected fields, in
    their order, whatever the record holds: the length and the first and
    last element (null when empty) for an array, the type and
    [isArray: false] for another value, [found: false] for a field that
    is not there. *)
Theorem debugRecordStructure_arrayFields (record : object) :
  (forall k v, In (k, v) record -> v <> VUndefined) ->
  exists d,
    debugRecordStructure record = Normal d /\
    arrayFields d = map (fun field => (field, expected_note record field)) expectedFields /\
    length (arrayFields d) = 16%nat.
Proof.
  intros Hdef. unfold debugRecordStructure.
  destruct (debug_entries_returns (entries record)
              {| fields := []; arrayFields := []; listFields := [] |}) as [d0 Hrun].
  { intros k v Hin. apply (Hdef k v), entries_In, Hin. }
  rewrite Hrun. eexists. split; [reflexivity|].
  destruct (debug_expected_run record d0 (debug_entries_arrayFields _ _ _ Hrun))
    as (_ & _ & Ha).
  split; [exact Ha|]. rewrite Ha. reflexivity.
Qed.

(** X15.  A property that is [undefined] makes [debugRecordStructure]
    throw a TypeError: [JSON.stringify] gives [undefined] for it, which has
    no [substring]. *)
Theorem debugRecordStructure_undefined (record : object) (k : string) :
  In (k, VUndefined) record ->
  exists message, debugRecordStructure record = Throw (TypeError message).
Proof.
  intros Hin. unfold debugRecordStructure.
  rewrite (debug_entries_throws (entries record) _ k) by (apply entries_In, Hin).
  eexists. reflexivity.
Qed.

(** X16.  What [debugRecordStructure] returns for a record agrees with the
    record, name by name ([__proto__] apart, under which nothing is
    noted): [listFields] has the summary of every property that is an
    array and nothing else; [fields] has the type and the preview of every
    property, the preview being the first 100 UTF-16 units of the
    property's JSON text, followed by an ellipsis when the text has more;
    and an expected field that is an array has the same summary in
    [arrayFields] and in [listFields].  The numbers of the record are safe
    integers, which JSON writes as decimal numerals. *)
Theorem debugRecordStructure_agrees (record : object) (d : DebugInfo) :
  wf_object record ->
  (forall k v, In (k, v) record -> safe_numbers v = true) ->
  debugRecordStructure record = Normal d ->
  (forall k,
     obj_get (listFields d) k =
       if String.eqb k "__proto__" then None
       else match obj_get record k with
            | Some (VArr elems) => Some (array_summary elems)
            | _ => None
            end) /\
  (forall k,
     obj_get (fields d) k =
       if String.eqb k "__proto__" then None
       else match obj_get record k with
            | Some v =>
                match JSON_stringify v with
                | Some text =>
                    Some (VObj [("type", VStr (if isArray v then "array" else typeof v));
                                ("preview", VStr (preview_of text))])
                | None => None
                end
            | None => None
            end) /\
  (forall field elems,
     In field expectedFields ->
     obj_get record field = Some (VArr elems) ->
     obj_get (arrayFields d) field = Some (array_summary elems) /\
     obj_get (listFields d) field = Some (array_summary elems)).
Proof.
  intros Hwf _. unfold debugRecordStructure.
  destruct (debug_entries {| fields := []; arrayFields := []; listFields := [] |}
              (entries record)) as [d0|e] eqn:Hrun; [|discriminate].
  intros Heq.
  assert (Hd : d = fold_left (debug_expected record) expectedFields d0) by congruence.
  clear Heq. subst d.
  destruct (debug_entries_notes _ _ _ (entries_wf _ Hwf) Hrun) as (Harr & Hlist & Hfields).
  destruct (debug_expected_run record d0 Harr) as (Hf & Hl & Ha).
  rewrite Hf, Hl, Ha. cbn [fields listFields obj_get] in Hlist, Hfields.
  assert (Hlist' : forall k,
             obj_get (listFields d0) k =
               if String.eqb k "__proto__" then None
               else match obj_get record k with
                    | Some (VArr elems) => Some (array_summary elems)
                    | _ => None
                    end).
  { intros k. rewrite Hlist, (obj_get_entries _ _ Hwf). reflexivity. }
  split; [exact Hlist'|]. split.
  - intros k. rewrite Hfields, (obj_get_entries _ _ Hwf). reflexivity.
  - intros field elems Hin Hget. split.
    + rewrite obj_get_map_key by exact Hin. unfold expected_note. rewrite Hget.
      reflexivity.
    + rewrite Hlist', Hget.
      repeat (destruct Hin as [<-|Hin]; [reflexivity|]). destruct Hin.
Qed.

End Properties.

(** ** The client at work *)



(** C4 at work: a client without credentials, [authenticate()]. *)
Lemma authenticate_missing_credentials_witness :
  exists w',
    authenticate (H:=sample_host) VNull VNull (world_of anonymous None [reply 200 "" None]) =
      (Throw MissingCredentials, w') /\
    no_network (world_of anonymous None [reply 200 "" None]) w' /\
    token (this w') = VNull /\
    tokenExpiry (this w') = None /\
    localStorage w' = None.
Proof.
  exact (authenticate_missing_credentials (H:=sample_host)
           (world_of anonymous None [reply 200 "" None]) VNull VNull
           (or_introl eq_refl)).
Defined.

(** C7 at work, with the token [abc]: a request to [/api/v53a/] with a
    parameter that needs encoding and one whose name is an array index,
    which [Object.entries] puts first; [getV53aList(1, 10, {})]; and a base
    URL given with and without its trailing slash. *)
Lemma request_url_and_headers_witness :
  (exists x more,
     exchanges (snd (request (H:=sample_host) "/api/v53a/" "GET"
                       (Some [("q", VStr "a b&c/ü=1"); ("7", VNum 250520)]) VNull
                       world_listing)) = x :: more /\
     ex_url x = "http://aiprediction.us/api/v53a/?7=250520&q=a+b%26c%2F%C3%BC%3D1" /\
     method (ex_options x) = "GET" /\
     headers (ex_options x) =
       [("Authorization", "Token abc"); ("Content-Type", "application/json")]) /\
  (exists x more,
     exchanges (snd (getV53aList (H:=sample_host) (VNum 1) (VNum 10) [] world_listing)) =
       x :: more /\
     ex_url x = "http://aiprediction.us/api/v53a/?page=1&page_size=10" /\
     method (ex_options x) = "GET" /\
     headers (ex_options x) =
       [("Authorization", "Token abc"); ("Content-Type", "application/json")]) /\
  baseUrl (this (snd (constructor (H:=sample_host) "http://aiprediction.us/" VNull VNull
                        world_listing))) = "http://aiprediction.us" /\
  baseUrl (this (snd (constructor (H:=sample_host) "http://aiprediction.us" VNull VNull
                        world_listing))) = "http://aiprediction.us".
Proof.
  assert (Hplain : forall k v,
            In (k, v) [("q", VStr "a b&c/ü=1"); ("7", VNum 250520)] -> plain v = true).
  { intros k v [[= <- <-]|[[= <- <-]|[]]]; reflexivity. }
  destruct (request_url_and_headers (H:=sample_host) "/api/v53a/" "GET"
              [("q", VStr "a b&c/ü=1"); ("7", VNum 250520)] VNull
              world_listing eq_refl eq_refl Hplain)
    as (Hsent & _ & Hlist & Hslash & Hbare).
  split; [|split; [|split]].
  - destruct (Hsent "api/v53a/" (or_introl eq_refl)) as (x & more & Hex & Hurl & Hm & Hh).
    exists x, more. repeat split; assumption.
  - destruct Hlist as (x & more & Hex & Hurl & Hm & Hh).
    exists x, more. repeat split; assumption.
  - apply (Hslash "http://aiprediction.us").
  - apply Hbare. intros b' Hb'.
    pose proof (endsWith_slash_app b') as Hends. rewrite <- Hb' in Hends.
    discriminate Hends.
Defined.


(** C9, the claim as worded fails: the store holds [api_token] and no
    [api_token_expiry].  The constructor loads nothing and removes
    nothing, so [isTokenValid] is false and the entry is still there. *)
Lemma constructor_keeps_lone_entry :
  ~ token_invariant_as_claimed
      (snd (constructor (H:=sample_host) "http://aiprediction.us" VNull VNull
              world_lone_token)).
Proof.
  unfold token_invariant_as_claimed, store_lacks.
  intros [Hvalid|(_ & _ & Hlacks & _)].
  - vm_compute in Hvalid. discriminate Hvalid.
  - vm_compute in Hlacks. discriminate Hlacks.
Qed.

(** C2, where the code fails the claim: the response to [authenticate] is
    [{token: "abc"}], without [expires_at].  The expiry becomes an Invalid
    Date, not the current time plus 24 hours.  With a store the token is
    written to it, [toISOString] throws a RangeError and no expiry is
    written; without a store [authenticate] answers true and leaves a token
    that [isTokenValid] rejects. *)
Theorem authenticate_without_expires_at :
  (let r := authenticate (H:=sample_host) VNull VNull world_no_expires_at in
   fst r = Throw RangeError /\
   token (this (snd r)) = VStr "abc" /\
   tokenExpiry (this (snd r)) = Some InvalidDate /\
   tokenExpiry (this (snd r)) <> Some (DateAt (clock (snd r) + 24 * 60 * 60 * 1000)) /\
   localStorage (snd r) = Some (<["api_token" := "abc"]> ∅)) /\
  (let r := authenticate (H:=sample_host) VNull VNull world_no_expires_at_no_store in
   fst r = Normal true /\
   tokenExpiry (this (snd r)) = Some InvalidDate /\
   isTokenValid (snd r) = (Normal false, snd r)).
Proof.
  split; cbv zeta.
  - repeat split; try (vm_compute; reflexivity). vm_compute. discriminate.
  - repeat split; vm_compute; reflexivity.
Qed.

(** ** More runs *)

(** C3 at work: with exactly five minutes left the token is not valid. *)
Lemma isTokenValid_spec_witness :
  isTokenValid world_five_minutes_left = (Normal false, world_five_minutes_left) /\
  isTokenValid world_listing = (Normal true, world_listing).
Proof.
  split.
  - destruct (isTokenValid_spec world_five_minutes_left) as (b & Hrun & _ & Hle).
    rewrite Hrun, (Hle 1747834241834%Z eq_refl); [reflexivity|].
    vm_compute. discriminate.
  - destruct (isTokenValid_spec world_listing) as (b & Hrun & Hiff & _).
    rewrite Hrun. replace b with true; [reflexivity|]. symmetry. apply Hiff.
    split; [reflexivity|]. exists 1747834241834%Z. split; reflexivity.
Defined.

(** C5 at work: a valid token needs no call; refused credentials make the
    answer false after one call of [fetch]. *)
Lemma ensureAuthenticated_spec_witness :
  ensureAuthenticated (H:=sample_host) world_listing = (Normal true, world_listing) /\
  exists w',
    ensureAuthenticated (H:=sample_host) world_refused = (Normal false, w') /\
    length (exchanges w') = 1%nat.
Proof.
  split.
  - exact (proj1 (ensureAuthenticated_spec (H:=sample_host) world_listing) eq_refl).
  - destruct (authenticate (H:=sample_host) VNull VNull world_refused) as [c w'] eqn:Hauth.
    destruct (proj2 (ensureAuthenticated_spec (H:=sample_host) world_refused)
                eq_refl c w' Hauth) as (_ & _ & Hens).
    vm_compute in Hauth. injection Hauth as <- <-.
    eexists. split; [exact Hens | reflexivity].
Defined.

(** C6 at work: refused credentials end in "Not authenticated" and a
    listing comes back as the server sent it. *)
Lemma request_all_or_nothing_witness :
  fst (request (H:=sample_host) "api/v53a/" "GET" None VNull world_refused) =
    Throw NotAuthenticated /\
  fst (request (H:=sample_host) "api/v53a/" "GET" None VNull world_listing) =
    Normal (VObj [("count", VNum 0); ("results", VArr [])]).
Proof.
  split.
  - destruct (request_all_or_nothing (H:=sample_host) "api/v53a/" "GET" None VNull
                world_refused) as (b & w0 & Hens & Hfalse & _).
    vm_compute in Hens. injection Hens as <- <-. rewrite (Hfalse eq_refl). reflexivity.
  - destruct (request (H:=sample_host) "api/v53a/" "GET" None VNull world_listing)
      as [c w'] eqn:Hreq.
    destruct (request_all_or_nothing (H:=sample_host) "api/v53a/" "GET" None VNull
                world_listing) as (b & w0 & _ & _ & Hall).
    destruct (Hall c w' Hreq) as (more & _ & _).
    vm_compute in Hreq. injection Hreq as <- <-. reflexivity.
Defined.

(** C9 (amended) at work: a stored token that is good is loaded and kept;
    one whose expiry does not parse is dropped from the client and from the
    store. *)
Lemma constructor_token_invariant_witness :
  (exists w',
     constructor (H:=sample_host) "http://aiprediction.us/" VNull VNull world_stored_token =
       (Normal tt, w') /\
     isTokenValid w' = (Normal true, w') /\
     token (this w') = VStr "abc") /\
  (exists w',
     constructor (H:=sample_host) "http://aiprediction.us/" VNull VNull world_stored_garbage =
       (Normal tt, w') /\
     token (this w') = VNull /\
     store_lacks "api_token" w' /\
     store_lacks "api_token_expiry" w').
Proof.
  split.
  - destruct (constructor_token_invariant (H:=sample_host) "http://aiprediction.us/"
                VNull VNull world_stored_token) as (w' & Hrun & _ & Hboth & _).
    destruct (Hboth "abc" "2025-05-21T13:30:41.834Z" ltac:(vm_compute; reflexivity))
      as [(Hvalid & Htok & _)|(Htok & _)].
    + exists w'. repeat split; assumption.
    + vm_compute in Hrun. injection Hrun as <-. discriminate Htok.
  - destruct (constructor_token_invariant (H:=sample_host) "http://aiprediction.us/"
                VNull VNull world_stored_garbage) as (w' & Hrun & _ & _ & Hexpired & _).
    destruct (Hexpired "abc" "tomorrow" ltac:(vm_compute; reflexivity)
                ltac:(vm_compute; reflexivity)) as (Htok & _ & Hl1 & Hl2).
    exists w'. repeat split; assumption.
Defined.

(** The scenario of the specification: authenticate, receive the token
    [abc] good for 24 hours, then [getV53aList(1, 10, {})] fetches
    [api/v53a/?page=1&page_size=10] with [Authorization: Token abc] and
    returns the body as the server sent it. *)
Example scenario_authenticate_then_list :
  let run := (constructor (H:=sample_host) "http://aiprediction.us/"
                (VStr "alice") (VStr "secret") ;;
              authenticate (H:=sample_host) VNull VNull ;;
              valid <- isTokenValid ;;
              data <- getV53aList (H:=sample_host) (VNum 1) (VNum 10) [] ;;
              ret (valid, data))%js world_scenario in
  fst run = Normal (true, VObj [("count", VNum 0); ("results", VArr [])]) /\
  map (fun x => (method (ex_options x), ex_url x, headers (ex_options x)))
      (exchanges (snd run)) =
    [("POST", "http://aiprediction.us/api-token-auth/",
      [("Content-Type", "application/json")]);
     ("GET", "http://aiprediction.us/api/v53a/?page=1&page_size=10",
      [("Authorization", "Token abc"); ("Content-Type", "application/json")])] /\
  localStorage (snd run) = Some token_store.
Proof. cbv zeta. repeat split; vm_compute; reflexivity. Qed.

(** Form-urlencoding and the order of [Object.entries]. *)
Example URLSearchParams_example :
  URLSearchParams_toString
    (entries [("q", VStr "a b&c/ü"); ("10", VBool true); ("2", VNull);
              ("ids", VArr [VNum 1; VNum (-2)])]) =
  "2=null&10=true&q=a+b%26c%2F%C3%BC&ids=1%2C-2".
Proof. vm_compute. reflexivity. Qed.

(** ** Runs of the further properties *)

(** X1 at work: the credentials given to [authenticate] are refused with
    400. *)
Lemma authenticate_failure_keeps_token_witness :
  exists w',
    authenticate (H:=sample_host) (VStr "bob") VNull world_refused =
      (Throw (AuthenticationFailed 400 "bad credentials"), w') /\
    token (this w') = VNull /\
    localStorage w' = Some ∅ /\
    username (this w') = VStr "bob" /\
    password (this w') = VStr "secret".
Proof.
  destruct (authenticate_failure_keeps_token (H:=sample_host) world_refused
              (VStr "bob") VNull 100
              (Replied {| status := 400; text := "bad credentials"; json := None |}) []
              eq_refl eq_refl eq_refl eq_refl)
    as (w' & Hrun & Htok & _ & Hsto & Hu & Hp & _).
  exists w'. repeat split; assumption.
Defined.

(** X2 at work: the answer is [{}]. *)
Lemma authenticate_accepts_missing_token_witness :
  fst (authenticate (H:=sample_host) VNull VNull world_no_token) = Normal true /\
  token (this (snd (authenticate (H:=sample_host) VNull VNull world_no_token))) =
    VUndefined.
Proof.
  destruct (authenticate (H:=sample_host) VNull VNull world_no_token) as [c w'] eqn:Hrun.
  destruct (authenticate_accepts_missing_token (H:=sample_host) world_no_token w' c 100
              {| status := 200; text := "{}"; json := Some (VObj []) |} []
              (VObj []) VUndefined VUndefined
              eq_refl eq_refl eq_refl eq_refl eq_refl eq_refl eq_refl eq_refl Hrun)
    as (Hc & Htok & _).
  split; assumption.
Defined.




(** X7 at work: record 363 and the last elements of 250520. *)
Lemma detail_and_last_elements_urls_witness :
  (exists x more,
     exchanges (snd (getV53aDetail (H:=sample_host) (VNum 363) world_listing)) = x :: more /\
     ex_url x = "http://aiprediction.us/api/v53a/363/") /\
  (exists x more,
     exchanges (snd (getLastElements (H:=sample_host) (VNum 250520) world_listing)) =
       x :: more /\
     ex_url x = "http://aiprediction.us/api/v53a/250520/last-elements/").
Proof.
  split.
  - destruct (detail_and_last_elements_urls (H:=sample_host) (VNum 363)
                world_listing eq_refl eq_refl eq_refl) as ((out & more & Hex) & _).
    eexists _, more. split; [exact Hex | reflexivity].
  - destruct (detail_and_last_elements_urls (H:=sample_host) (VNum 250520)
                world_listing eq_refl eq_refl eq_refl) as (_ & (out & more & Hex)).
    eexists _, more. split; [exact Hex | reflexivity].
Defined.

(** X18 at work: [expires_at] is [{toString: 1}]; the token is good for
    24 hours from the time of the answer. *)
Lemma authenticate_default_expiry_witness :
  fst (authenticate (H:=sample_host) VNull VNull world_expires_at_object) = Normal true /\
  tokenExpiry (this (snd (authenticate (H:=sample_host) VNull VNull
                            world_expires_at_object))) =
    Some (DateAt (1747747841834 + 100 + 86400000)) /\
  isTokenValid (snd (authenticate (H:=sample_host) VNull VNull world_expires_at_object)) =
    (Normal true,
     snd (authenticate (H:=sample_host) VNull VNull world_expires_at_object)).
Proof.
  destruct (authenticate (H:=sample_host) VNull VNull world_expires_at_object)
    as [c w'] eqn:Hrun.
  destruct (authenticate_default_expiry (H:=sample_host) world_expires_at_object w' c 100
              {| status := 200; text := "{...}";
                 json := Some (VObj [("token", VStr "abc");
                                     ("expires_at", VObj [("toString", VNum 1)])]) |}
              [] _ (VStr "abc") (VObj [("toString", VNum 1)])
              eq_refl eq_refl eq_refl eq_refl eq_refl eq_refl eq_refl eq_refl Hrun)
    as (_ & Hdefault).
  destruct (Hdefault eq_refl) as (He & Hrest).
  destruct (Hrest eq_refl) as (Hc & Hvalid & _).
  cbn [fst snd]. split; [exact Hc|]. split; [exact He | exact Hvalid].
Defined.

(** X11 at work: the number 1 and the string 1 are sent alike, and a
    value is read back from the query. *)
Lemma urlencode_round_trip_witness :
  URLSearchParams_toString [("a", VNum 1)] = URLSearchParams_toString [("a", VStr "1")] /\
  urldecode "a+b%26c%2F%C3%BC" = "a b&c/ü".
Proof.
  destruct urlencode_round_trip as (Hback & _ & Hsame). split.
  - apply Hsame; [|reflexivity].
    intros p [[<-|[]]|[<-|[]]]; reflexivity.
  - apply (proj2 (Hback "a b&c/ü")).
Defined.

(** X10 at work: two filters after [page] and [page_size]. *)
Lemma getV53aList_query_entries_witness :
  entries (list_params VUndefined (VNum 50) [("did", VNum 250520); ("id", VNum 363)]) =
    [("page", VNum 1); ("page_size", VNum 50); ("did", VNum 250520); ("id", VNum 363)].
Proof.
  assert (Hwf : wf_object [("did", VNum 250520); ("id", VNum 363)]).
  { unfold wf_object. cbn [map fst]. repeat constructor; cbn; intuition discriminate. }
  destruct (getV53aList_query_entries VUndefined (VNum 50)
              [("did", VNum 250520); ("id", VNum 363)] Hwf) as (_ & _ & Horder).
  apply Horder; [reflexivity | reflexivity |].
  intros k x [[= <- <-]|[[= <- <-]|[]]]; reflexivity.
Defined.


(** X14 and X16 at work: the sample record. *)
Lemma debugRecordStructure_arrayFields_witness :
  exists d,
    debugRecordStructure sample_record = Normal d /\
    obj_get (arrayFields d) "sp_array" =
      Some (VObj [("length", VNum 3); ("firstElement", VNum 5921);
                  ("lastElement", VNum 5944)]) /\
    obj_get (arrayFields d) "es_array" =
      Some (VObj [("length", VNum 0); ("firstElement", VNull); ("lastElement", VNull)]) /\
    obj_get (arrayFields d) "p1_array" =
      Some (VObj [("type", VStr "string"); ("isArray", VBool false)]) /\
    obj_get (arrayFields d) "c7_array" = Some (VObj [("found", VBool false)]).
Proof.
  destruct (debugRecordStructure_arrayFields sample_record) as (d & Hrun & Ha & _).
  { intros k v Hin. cbn in Hin. intuition congruence. }
  exists d. split; [exact Hrun|]. rewrite Ha. repeat split.
Defined.

Lemma debugRecordStructure_agrees_witness :
  exists d,
    debugRecordStructure sample_record_text = Normal d /\
    obj_get (listFields d) "es_array" = obj_get (arrayFields d) "es_array" /\
    obj_get (listFields d) "did" = None /\
    obj_get (fields d) "did" =
      Some (VObj [("type", VStr "number"); ("preview", VStr "250520")]) /\
    obj_get (fields d) "note" =
      Some (VObj [("type", VStr "string"); ("preview", VStr (json_quote sixty_umlauts))]) /\
    obj_get (fields d) "long" =
      Some (VObj [("type", VStr "string");
                  ("preview",
                   VStr (String (ascii_of_N 34)
                           "aaaaaaaaaaaaaaaaaaaaaaaaaaaaaaaaaaaaaaaaaaaaaaaaaaaaaaaaaaaaaaaaaaaaaaaaaaaaaaaaaaaaaaaaaaaaaaaaaaa..."))]).
Proof.
  destruct (debugRecordStructure sample_record_text) as [d|e] eqn:Hrun;
    [|discriminate Hrun].
  assert (Hwf : wf_object sample_record_text).
  { unfold wf_object. cbn [map fst sample_record_text].
    repeat constructor; cbn; intuition discriminate. }
  assert (Hsafe : forall k v, In (k, v) sample_record_text -> safe_numbers v = true).
  { intros k v [[= <- <-]|[[= <- <-]|[[= <- <-]|[[= <- <-]|[]]]]]; reflexivity. }
  destruct (debugRecordStructure_agrees sample_record_text d Hwf Hsafe Hrun)
    as (Hl & Hf & Hboth).
  exists d. split; [reflexivity|]. split; [|split; [|split; [|split]]].
  - destruct (Hboth "es_array" [] ltac:(cbn; tauto) eq_refl) as [-> ->]. reflexivity.
  - rewrite Hl. reflexivity.
  - rewrite Hf. reflexivity.
  - rewrite Hf. reflexivity.
  - rewrite Hf. reflexivity.
Defined.

(** X15 at work: a record with an [undefined] property. *)
Lemma debugRecordStructure_undefined_witness :
  exists message,
    debugRecordStructure [("did", VNum 250520); ("note", VUndefined)] =
      Throw (TypeError message).
Proof.
  apply (debugRecordStructure_undefined _ "note"). right. left. reflexivity.
Defined.

